(** * dev-journal: the page registry, the tree reconciler and the webhook
      handlers, embedded from the Go sources.

    Go strings are byte strings: they are modelled by [string] (a list of
    8-bit [ascii]).  The SQLite table [pages] has [path] as its primary key
    and is modelled by a finite map from paths to the remaining columns. *)

From Stdlib Require Import ZArith NArith Ascii String List Lia Bool.
From stdpp Require Import base decidable option list sorting gmap strings.

Local Open Scope string_scope.
Local Open Scope list_scope.

(** ** Byte-level view of Go strings *)

Module GoString.

Definition bytes (s : string) : list ascii := list_ascii_of_string s.
Definition str (l : list ascii) : string := string_of_list_ascii l.

(** [len(s)] *)
Definition len (s : string) : nat := String.length s.

(** [s[i:]] and [s[:j]] *)
Definition slice_from (i : nat) (s : string) : string := str (drop i (bytes s)).
Definition slice_to (j : nat) (s : string) : string := str (take j (bytes s)).

(** [strings.HasSuffix]:
    [len(s) >= len(suffix) && s[len(s)-len(suffix):] == suffix] *)
Definition HasSuffix (s suffix : string) : bool :=
  (len suffix <=? len s)%nat
  && String.eqb (slice_from (len s - len suffix) s) suffix.

(** [strings.TrimSuffix]: [s[:len(s)-len(suffix)]] when [HasSuffix], else [s] *)
Definition TrimSuffix (s suffix : string) : string :=
  if HasSuffix s suffix then slice_to (len s - len suffix) s else s.

(** [strings.HasPrefix]:
    [len(s) >= len(prefix) && s[0:len(prefix)] == prefix] *)
Definition HasPrefix (s prefix : string) : bool :=
  (len prefix <=? len s)%nat && String.eqb (slice_to (len prefix) s) prefix.

(** [strings.ReplaceAll(s, old, new)] for a non-empty [old]: the
    non-overlapping occurrences of [old] are replaced from left to right.
    [skip] counts the bytes of an occurrence still to be dropped. *)
Fixpoint replace_go (old new : string) (skip : nat) (s : string) : string :=
  match s with
  | EmptyString => EmptyString
  | String c s' =>
      match skip with
      | S k => replace_go old new k s'
      | O =>
          if String.prefix old s
          then new +:+ replace_go old new (len old - 1) s'
          else String c (replace_go old new 0 s')
      end
  end.

Definition ReplaceAll (s old new : string) : string := replace_go old new 0 s.

(** [strings.Split(s, sep)] for a one-byte separator; [cur] holds the
    bytes of the piece being read, last first. *)
Fixpoint split_go (sep : ascii) (cur : list ascii) (s : string) : list string :=
  match s with
  | EmptyString => [str (rev cur)]
  | String c s' =>
      if Ascii.eqb c sep then str (rev cur) :: split_go sep [] s'
      else split_go sep (c :: cur) s'
  end.

Definition Split (s : string) (sep : ascii) : list string := split_go sep [] s.

(** ASCII classes used by [strings.Title] *)
Definition code (c : ascii) : nat := nat_of_ascii c.
Definition is_digit (c : ascii) : bool := (48 <=? code c)%nat && (code c <=? 57)%nat.
Definition is_lower (c : ascii) : bool := (97 <=? code c)%nat && (code c <=? 122)%nat.
Definition is_upper (c : ascii) : bool := (65 <=? code c)%nat && (code c <=? 90)%nat.

(** [strings.isSeparator], on the ASCII range: digits, letters and the
    underscore are not separators, every other ASCII byte is.  Bytes
    above 0x7F belong to multi-byte runes, which Go classifies with its
    Unicode tables; the model is exact on ASCII strings only and leaves
    such bytes alone. *)
Definition isSeparator (c : ascii) : bool :=
  if (code c <=? 127)%nat
  then negb (is_digit c || is_lower c || is_upper c || Ascii.eqb c "_"%char)
  else false.

(** [unicode.ToTitle] on the ASCII range *)
Definition ToTitle (c : ascii) : ascii :=
  if is_lower c then ascii_of_nat (code c - 32) else c.

(** [strings.Title]: [prev] starts as a space; a rune is title-cased when
    the rune before it is a separator. *)
Fixpoint title_go (prev : ascii) (s : string) : string :=
  match s with
  | EmptyString => EmptyString
  | String c s' =>
      String (if isSeparator prev then ToTitle c else c) (title_go c s')
  end.

Definition Title (s : string) : string := title_go " "%char s.


End GoString.

(** ** path/filepath on a Unix target ([Separator = '/']) *)

Module Filepath.
Import GoString.

Definition IsPathSeparator (c : ascii) : bool := Ascii.eqb c "/"%char.

(** [filepath.Ext]: scan from the end while the byte is not a separator;
    at the first dot return [path[i:]].  [r] is the part of the path still
    to be scanned, reversed; [acc] the bytes already passed. *)
Fixpoint ext_scan (r acc : list ascii) : string :=
  match r with
  | [] => EmptyString
  | c :: r' =>
      if IsPathSeparator c then EmptyString
      else if Ascii.eqb c "."%char then str (c :: acc)
      else ext_scan r' (c :: acc)
  end.

Definition Ext (path : string) : string := ext_scan (rev (bytes path)) [].

(** The two loops of [filepath.Base], on the reversed path *)
Fixpoint strip_seps (r : list ascii) : list ascii :=
  match r with
  | c :: r' => if IsPathSeparator c then strip_seps r' else r
  | [] => []
  end.

Fixpoint last_elem (r acc : list ascii) : list ascii :=
  match r with
  | c :: r' => if IsPathSeparator c then acc else last_elem r' (c :: acc)
  | [] => acc
  end.

(** [filepath.Base]: ["."] for the empty path, trailing separators
    stripped, the last element kept, ["/"] when nothing is left. *)
Definition Base (path : string) : string :=
  if String.eqb path "" then "."
  else
    let e := last_elem (strip_seps (rev (bytes path))) [] in
    match e with
    | [] => "/"
    | _ => str e
    end.

End Filepath.

(** ** Errors, the world the program runs in, and the monad threading it *)

(** Go [error] values met in the program.  [Errno] stands for a failure
    reported by the operating system, the SQL driver or a subprocess;
    [Wrapf] for [fmt.Errorf("<msg>: %w", err)]. *)
Inductive error : Type :=
| SkipDir
| SkipAll
| ErrNoRows
| Errno (msg : string)
| Wrapf (msg : string) (e : error).

Fixpoint error_string (e : error) : string :=
  match e with
  | SkipDir => "skip this directory"
  | SkipAll => "skip everything and stop the walk"
  | ErrNoRows => "sql: no rows in result set"
  | Errno msg => msg
  | Wrapf msg e' => msg +:+ ": " +:+ error_string e'
  end.

(** Columns of table [pages] other than the key:
    [title TEXT, is_visible BOOLEAN NOT NULL DEFAULT TRUE,
     visit_count INTEGER NOT NULL DEFAULT 0]. *)
Record Row : Type := mkRow {
  title : string;
  is_visible : bool;
  visit_count : Z
}.

(** [database.Page] *)
Record Page : Type := mkPage {
  Path : string;
  Title : string;
  IsVisible : bool;
  VisitCount : Z
}.

(** The content tree as [os.Lstat] and [os.ReadDir] show it.  A [File] is
    any entry that is not a directory, with what reading it yields; a [Dir]
    carries its listing, in the order [os.ReadDir] returns it, and the error
    of that call, if any. *)
#[warnings="-register-all"] Inductive Entry : Type :=
| File (name : string) (data : string + string)
| Dir (name : string) (listing : list Entry) (readErr : option string).

Definition Name (d : Entry) : string :=
  match d with File n _ => n | Dir n _ _ => n end.

Definition IsDir (d : Entry) : bool :=
  match d with File _ _ => false | Dir _ _ _ => true end.

(** What one run of [git pull] does: fail, with its combined output and the
    text of the error [exec] reports, or succeed and leave the working copy
    in a new state. *)
Inductive PullOutcome : Type :=
| PullFailed (output : string) (status : string)
| PullOk (tree : string + Entry).

(** The [go] statements of the program *)
Inductive Goroutine : Type :=
| GoIncrementVisitCount (path : string)
| GoPullAndSync.

Record World : Type := mkWorld {
  pages : gmap string Row;          (* table [pages] *)
  faults : list (option string);    (* outcomes of the next SQL statements:
                                       [Some msg] is a driver failure *)
  content : string + Entry;         (* [os.Lstat] of the content path *)
  remote : list PullOutcome;        (* outcomes of the next [git pull]s *)
  logs : list string;               (* lines written through [log] *)
  opened : list string;             (* files opened below the content path *)
  goroutines : list Goroutine       (* goroutines started, oldest first *)
}.

Definition set_pages (f : gmap string Row -> gmap string Row) (w : World) : World :=
  mkWorld (f (pages w)) (faults w) (content w) (remote w) (logs w) (opened w)
    (goroutines w).
Definition set_faults (fs : list (option string)) (w : World) : World :=
  mkWorld (pages w) fs (content w) (remote w) (logs w) (opened w) (goroutines w).
Definition set_content (c : string + Entry) (w : World) : World :=
  mkWorld (pages w) (faults w) c (remote w) (logs w) (opened w) (goroutines w).
Definition set_remote (r : list PullOutcome) (w : World) : World :=
  mkWorld (pages w) (faults w) (content w) r (logs w) (opened w) (goroutines w).
Definition add_log (line : string) (w : World) : World :=
  mkWorld (pages w) (faults w) (content w) (remote w) (logs w ++ [line])
    (opened w) (goroutines w).
Definition add_opened (name : string) (w : World) : World :=
  mkWorld (pages w) (faults w) (content w) (remote w) (logs w)
    (opened w ++ [name]) (goroutines w).
Definition add_goroutine (g : Goroutine) (w : World) : World :=
  mkWorld (pages w) (faults w) (content w) (remote w) (logs w) (opened w)
    (goroutines w ++ [g]).

Definition M (A : Type) : Type := World -> A * World.

Definition ret {A} (a : A) : M A := fun w => (a, w).
Definition bind {A B} (c : M A) (k : A -> M B) : M B :=
  fun w => let (a, w') := c w in k a w'.
Definition get : M World := fun w => (w, w).
Definition modify (f : World -> World) : M unit := fun w => (tt, f w).

Notation "'let*' x ':=' c 'in' k" := (bind c (fun x => k))
  (at level 10, x name, c at level 100, k at level 200).

(** [log.Println] / [log.Printf], the line already formatted *)
Definition log_line (line : string) : M unit := modify (add_log line).

(** [go f()] *)
Definition go (g : Goroutine) : M unit := modify (add_goroutine g).

(** ** package database *)

Module Database.
Import GoString.

(** The driver answers the next statement: it runs, or fails. *)
Definition driver : M (option string) :=
  fun w =>
    match faults w with
    | [] => (None, w)
    | o :: fs => (o, set_faults fs w)
    end.

(** [db.Exec]: the statement is applied unless the driver fails. *)
Definition Exec (stmt : gmap string Row -> gmap string Row) : M (option error) :=
  let* o := driver in
  match o with
  | Some msg => ret (Some (Errno msg))
  | None => let* _ := modify (set_pages stmt) in ret None
  end.

(** [db.Query] / [db.QueryRow]: the result set unless the driver fails. *)
Definition Query {A} (q : gmap string Row -> A) : M (A + error) :=
  let* o := driver in
  match o with
  | Some msg => ret (inr (Errno msg))
  | None => let* w := get in ret (inl (q (pages w)))
  end.

(** [pathToTitle] *)
Definition pathToTitle (path : string) : string :=
  let base := TrimSuffix path (Filepath.Ext path) in
  let base := Filepath.Base base in
  let base := ReplaceAll base "-" " " in
  let base := ReplaceAll base "_" " " in
  GoString.Title base.

(** [INSERT INTO pages (path, title) VALUES (?, ?)
     ON CONFLICT(path) DO NOTHING] *)
Definition insert_or_ignore (path ttl : string) (t : gmap string Row)
  : gmap string Row :=
  match t !! path with
  | Some _ => t
  | None => <[path := mkRow ttl true 0]> t
  end.

Definition UpsertPage (path : string) : M (option error) :=
  let ttl := pathToTitle path in
  Exec (insert_or_ignore path ttl).

(** [ORDER BY path]: SQLite compares TEXT bytewise *)
Definition path_le (a b : string * Row) : Prop := String.le a.1 b.1.

#[global] Instance path_le_dec : RelDecision path_le.
Proof. intros a b. unfold path_le. apply _. Defined.

Definition order_by_path (l : list (string * Row)) : list (string * Row) :=
  merge_sort path_le l.

(** [SELECT path, title, is_visible, visit_count FROM pages WHERE path = ?] *)
Definition GetPageByPath (path : string) : M (Page + error) :=
  let* r := Query (fun t => t !! path) in
  match r with
  | inr e => ret (inr e)
  | inl None => ret (inr ErrNoRows)
  | inl (Some row) =>
      ret (inl (mkPage path (title row) (is_visible row) (visit_count row)))
  end.

(** [SELECT path, title, is_visible, visit_count FROM pages ORDER BY path] *)
Definition GetAllPages : M (list Page + error) :=
  Query (fun t =>
    (fun kv : string * Row =>
       mkPage kv.1 (title kv.2) (is_visible kv.2) (visit_count kv.2))
    <$> order_by_path (map_to_list t)).

(** The loop body of [GetVisiblePages]: only path and title are scanned,
    the other fields keep Go's zero values. *)
Definition scan_nav (kv : string * Row) : Page :=
  let p := TrimSuffix kv.1 ".md" in
  let p := if String.eqb p "home" then "/" else p in
  mkPage p (title kv.2) false 0.

(** [SELECT path, title FROM pages WHERE is_visible = TRUE ORDER BY path] *)
Definition select_visible (t : gmap string Row) : list (string * Row) :=
  order_by_path (filter (fun kv => is_visible kv.2 = true) (map_to_list t)).

Definition GetVisiblePages : M (list Page + error) :=
  Query (fun t => scan_nav <$> select_visible t).

(** [UPDATE pages SET visit_count = visit_count + 1 WHERE path = ?] *)
Definition bump (r : Row) : Row :=
  mkRow (title r) (is_visible r) (visit_count r + 1).

Definition IncrementVisitCount (path : string) : M unit :=
  let* err := Exec (alter bump path) in
  match err with
  | Some e =>
      log_line ("Error incrementing visit count for " +:+ path +:+ ": "
                +:+ error_string e)
  | None => ret tt
  end.

(** [UPDATE pages SET is_visible = NOT is_visible WHERE path = ?] *)
Definition flip_visible (r : Row) : Row :=
  mkRow (title r) (negb (is_visible r)) (visit_count r).

Definition ToggleVisibility (path : string) : M (option error) :=
  Exec (alter flip_visible path).

End Database.

(** ** package config *)

Record ThemeConfig : Type := mkTheme {
  LogoURL : string;
  PrimaryColor : string;
  FontSans : string
}.

Record Config : Type := mkConfig {
  DBPath : string;
  ContentPath : string;
  GitRepoURL : string;
  GitSSHKeyPath : string;
  GithubWebhookSecret : string;
  AdminSecret : string;
  AdminLoginPath : string;
  Theme : ThemeConfig
}.

(** The environment of the process: the variables that are set, with
    their values *)
Definition Environ : Type := gmap string string.

Module Config.

(** [os.LookupEnv] *)
Definition LookupEnv (env : Environ) (key : string) : option string := env !! key.

(** [os.Getenv]: the value, empty when the variable is not set *)
Definition Getenv (env : Environ) (key : string) : string :=
  match env !! key with
  | Some value => value
  | None => ""
  end.

(** [errors.New] *)
Definition errors_New (text : string) : error := Errno text.

(** [getEnv] *)
Definition getEnv (env : Environ) (key fallback : string) : string :=
  match LookupEnv env key with
  | Some value => value
  | None => fallback
  end.

(** [Load] *)
Definition Load (env : Environ) : Config + error :=
  let repoURL := Getenv env "GIT_REPO_URL" in
  if String.eqb repoURL "" then
    inr (errors_New "GIT_REPO_URL environment variable is required")
  else
    let keyPath := Getenv env "GIT_SSH_KEY_PATH" in
    if String.eqb keyPath "" then
      inr (errors_New "GIT_SSH_KEY_PATH environment variable is required")
    else
      let webhookSecret := Getenv env "GITHUB_WEBHOOK_SECRET" in
      if String.eqb webhookSecret "" then
        inr (errors_New "GITHUB_WEBHOOK_SECRET environment variable is required")
      else
        let adminSecret := Getenv env "ADMIN_SECRET" in
        if String.eqb adminSecret "" then
          inr (errors_New "ADMIN_SECRET environment variable is required")
        else
          let adminLoginPath := Getenv env "ADMIN_LOGIN_PATH" in
          let adminLoginPath :=
            if String.eqb adminLoginPath "" then "/admin-login"
            else adminLoginPath in
          inl (mkConfig "./gmd-data.db" "./content" repoURL keyPath
                 webhookSecret adminSecret adminLoginPath
                 (mkTheme (getEnv env "THEME_LOGO_URL" "/static/img/logo.svg")
                    (getEnv env "THEME_COLOR_PRIMARY" "#3498db")
                    (getEnv env "THEME_FONT_SANS" "Inter"))).

End Config.

(** ** package content *)

Module Content.
Import GoString.

(** A path that [filepath.WalkDir] hands to its callback is the root
    joined with the names of the entries passed on the way down; it is
    represented by the list of those names, outermost first (the empty
    list is the root itself). *)
Definition WalkPath : Type := list string.

(** [filepath.Join(path, d1.Name())] *)
Definition Join (path : WalkPath) (name : string) : WalkPath := path ++ [name].

(** [filepath.Rel(root, path)] for a walked path: the names joined by the
    separator, ["."] for the root itself; it never fails on such a path. *)
Definition Rel (path : WalkPath) : string + error :=
  inl (match path with
       | [] => "."
       | _ => String.concat "/" path
       end).

(** [filepath.ToSlash]: the identity where [Separator] is ['/'] *)
Definition ToSlash (path : string) : string := path.

Definition newline : string := String "010"%char EmptyString.

(** [PullRepo]: [git pull] in the content directory *)
Definition PullRepo (cfg : Config) : M (option error) :=
  let* _ := log_line "Pulling latest changes from repository..." in
  let* w := get in
  match remote w with
  | [] => ret None
  | PullFailed output status :: rest =>
      let* _ := modify (set_remote rest) in
      ret (Some (Errno ("git pull failed: " +:+ output +:+ newline
                        +:+ status)))
  | PullOk tree :: rest =>
      let* _ := modify (set_remote rest) in
      let* _ := modify (set_content tree) in
      ret None
  end.

(** [os.Lstat] of the content path *)
Definition Lstat : M (Entry + error) :=
  let* w := get in
  match content w with
  | inl msg => ret (inr (Errno msg))
  | inr d => ret (inl d)
  end.

Definition is_SkipDir (e : error) : bool :=
  match e with SkipDir => true | _ => false end.
Definition is_SkipAll (e : error) : bool :=
  match e with SkipAll => true | _ => false end.

Section WalkDir.
(** [fs.WalkDirFunc]: the walked path, the entry ([None] for Go's nil)
    and the error met at that entry, if any. *)
Variable fn : WalkPath -> option Entry -> option error -> M (option error).

(** [filepath.walkDir] *)
Fixpoint walkDir (path : WalkPath) (d : Entry) {struct d} : M (option error) :=
  let* err := fn path (Some d) None in
  match err with
  | Some e => ret (if is_SkipDir e && IsDir d then None else Some e)
  | None =>
      match d with
      | File _ _ => ret None
      | Dir _ dirs readErr =>
          let* err :=
            match readErr with
            | Some msg => fn path (Some d) (Some (Errno msg))
            | None => ret None
            end in
          match err with
          | Some e => ret (if is_SkipDir e then None else Some e)
          | None =>
              (fix range (dirs : list Entry) : M (option error) :=
                 match dirs with
                 | [] => ret None
                 | d1 :: rest =>
                     let path1 := Join path (Name d1) in
                     let* err := walkDir path1 d1 in
                     match err with
                     | Some e => ret (if is_SkipDir e then None else Some e)
                     | None => range rest
                     end
                 end) dirs
          end
      end
  end.

(** The [for _, d1 := range dirs] loop of [walkDir], on its own *)
Definition walk_each (path : WalkPath) : list Entry -> M (option error) :=
  fix range (dirs : list Entry) : M (option error) :=
    match dirs with
    | [] => ret None
    | d1 :: rest =>
        let path1 := Join path (Name d1) in
        let* err := walkDir path1 d1 in
        match err with
        | Some e => ret (if is_SkipDir e then None else Some e)
        | None => range rest
        end
    end.

(** [filepath.WalkDir] *)
Definition WalkDir : M (option error) :=
  let* info := Lstat in
  let* err :=
    match info with
    | inr e => fn [] None (Some e)
    | inl d => walkDir [] d
    end in
  match err with
  | Some e => ret (if is_SkipDir e || is_SkipAll e then None else Some e)
  | None => ret None
  end.
End WalkDir.

(** The function literal that [Sync] passes to [filepath.WalkDir].  Go
    hands a nil entry only together with an error. *)
Definition visit (path : WalkPath) (d : option Entry) (err : option error)
  : M (option error) :=
  match err with
  | Some e => ret (Some e)
  | None =>
      match d with
      | None => ret None
      | Some d =>
          if negb (IsDir d) && HasSuffix (Name d) ".md" then
            match Rel path with
            | inr e => ret (Some e)
            | inl relPath =>
                let relPath := ToSlash relPath in
                let* _ := log_line ("Found markdown file: " +:+ relPath) in
                let* err := Database.UpsertPage relPath in
                let* _ :=
                  match err with
                  | Some e =>
                      log_line ("Failed to upsert page " +:+ relPath +:+ ": "
                                +:+ error_string e)
                  | None => ret tt
                  end in
                ret None
            end
          else ret None
      end
  end.

(** [Sync] *)
Definition Sync (contentPath : string) : M (option error) :=
  let* _ := log_line "Starting content sync with database..." in
  let* err := WalkDir visit in
  match err with
  | Some e => ret (Some (Wrapf "error walking content directory" e))
  | None =>
      let* _ := log_line "Content sync finished." in
      ret None
  end.

End Content.

(** ** crypto/sha256, crypto/hmac, crypto/subtle and encoding/hex

    Bytes are integers in [0, 256), 32-bit words integers in [0, 2^32) with
    the wrap-around written out.  SHA-256 follows FIPS 180-4, HMAC follows
    RFC 2104 (as [hmac.New(sha256.New, key)] does). *)

Module Crypto.
Local Open Scope Z_scope.

Definition byte_of (c : ascii) : Z := Z.of_nat (nat_of_ascii c).
Definition bytes_of (s : string) : list Z := byte_of <$> list_ascii_of_string s.

Definition w32 (x : Z) : Z := x mod 2 ^ 32.
Definition add32 (x y : Z) : Z := w32 (x + y).
Definition rotr (n x : Z) : Z :=
  Z.lor (Z.shiftr x n) (w32 (Z.shiftl x (32 - n))).
Definition not32 (x : Z) : Z := Z.lxor x (2 ^ 32 - 1).

Definition Ch (x y z : Z) : Z := Z.lxor (Z.land x y) (Z.land (not32 x) z).
Definition Maj (x y z : Z) : Z :=
  Z.lxor (Z.lxor (Z.land x y) (Z.land x z)) (Z.land y z).
Definition Sigma0 (x : Z) : Z := Z.lxor (Z.lxor (rotr 2 x) (rotr 13 x)) (rotr 22 x).
Definition Sigma1 (x : Z) : Z := Z.lxor (Z.lxor (rotr 6 x) (rotr 11 x)) (rotr 25 x).
Definition sigma0 (x : Z) : Z := Z.lxor (Z.lxor (rotr 7 x) (rotr 18 x)) (Z.shiftr x 3).
Definition sigma1 (x : Z) : Z := Z.lxor (Z.lxor (rotr 17 x) (rotr 19 x)) (Z.shiftr x 10).

(** The first 64 primes *)
Definition is_prime (n : nat) : bool :=
  forallb (fun d => negb (Nat.eqb (n mod d) 0)) (seq 2 (n - 2)).
Definition primes : list Z := Z.of_nat <$> List.filter is_prime (seq 2 310).

(** Integer cube root, one bit at a time from bit [b - 1] down *)
Fixpoint icbrt_bits (b : nat) (n r : Z) : Z :=
  match b with
  | O => r
  | S b' =>
      let r' := r + 2 ^ Z.of_nat b' in
      icbrt_bits b' n (if r' * r' * r' <=? n then r' else r)
  end.

(** Round constants: the first 32 bits of the fractional parts of the
    cube roots of the first 64 primes *)
Definition K : list Z :=
  Eval vm_compute in (fun p => w32 (icbrt_bits 40 (p * 2 ^ 96) 0)) <$> primes.

(** Initial hash value: the first 32 bits of the fractional parts of the
    square roots of the first 8 primes *)
Definition H0 : list Z :=
  Eval vm_compute in (fun p => w32 (Z.sqrt (p * 2 ^ 64))) <$> take 8 primes.

(** Big-endian encodings *)
Fixpoint be_bytes (n : nat) (x : Z) : list Z :=
  match n with
  | O => []
  | S n' => (Z.shiftr x (8 * Z.of_nat n')) mod 256 :: be_bytes n' x
  end.
Definition be_word (bs : list Z) : Z := foldl (fun acc b => acc * 256 + b) 0 bs.

(** Padding: a 1 bit, zero bits up to 448 mod 512, the bit length on 64 bits *)
Definition pad (msg : list Z) : list Z :=
  let l := Z.of_nat (length msg) in
  let k := Z.to_nat ((55 - l) mod 64) in
  msg ++ [128] ++ replicate k 0 ++ be_bytes 8 (8 * l).

Fixpoint chunks (fuel n : nat) {A} (l : list A) : list (list A) :=
  match fuel with
  | O => []
  | S fuel' =>
      match l with
      | [] => []
      | _ => take n l :: chunks fuel' n (drop n l)
      end
  end.

(** Message schedule, most recent word first *)
Fixpoint schedule (n : nat) (rw : list Z) : list Z :=
  match n with
  | O => rw
  | S n' =>
      let at_ i := nth i rw 0 in
      schedule n'
        (add32 (add32 (sigma1 (at_ 1%nat)) (at_ 6%nat))
               (add32 (sigma0 (at_ 14%nat)) (at_ 15%nat)) :: rw)
  end.

Record regs : Type := mkRegs { ra : Z; rb : Z; rc : Z; rd : Z;
                               re : Z; rf : Z; rg : Z; rh : Z }.

Definition round (s : regs) (kw : Z * Z) : regs :=
  let t1 := add32 (add32 (add32 (rh s) (Sigma1 (re s)))
                         (add32 (Ch (re s) (rf s) (rg s)) kw.1)) kw.2 in
  let t2 := add32 (Sigma0 (ra s)) (Maj (ra s) (rb s) (rc s)) in
  mkRegs (add32 t1 t2) (ra s) (rb s) (rc s) (add32 (rd s) t1) (re s) (rf s) (rg s).

Definition regs_of (h : list Z) : regs :=
  let at_ i := nth i h 0 in
  mkRegs (at_ 0%nat) (at_ 1%nat) (at_ 2%nat) (at_ 3%nat)
         (at_ 4%nat) (at_ 5%nat) (at_ 6%nat) (at_ 7%nat).

Definition list_of (s : regs) : list Z :=
  [ra s; rb s; rc s; rd s; re s; rf s; rg s; rh s].

Definition compress (h : list Z) (block : list Z) : list Z :=
  let w := rev (schedule 48 (rev (be_word <$> chunks 16 4 block))) in
  let s := foldl round (regs_of h) (zip K w) in
  zip_with add32 h (list_of s).

(** [sha256.Sum256] *)
Definition sha256 (msg : list Z) : list Z :=
  let p := pad msg in
  let h := foldl compress H0 (chunks (length p) 64 p) in
  h ≫= be_bytes 4.

(** [hmac.New(sha256.New, key)], [Write(msg)], [Sum(nil)] *)
Definition hmac_sha256 (key msg : list Z) : list Z :=
  let key := if (64 <? Z.of_nat (length key)) then sha256 key else key in
  let key := key ++ replicate (64 - length key) 0 in
  let ipad := (fun b => Z.lxor b 54) <$> key in
  let opad := (fun b => Z.lxor b 92) <$> key in
  sha256 (opad ++ sha256 (ipad ++ msg)).

(** [hex.EncodeToString]: two digits of ["0123456789abcdef"] per byte *)
Definition hexdigit (v : Z) : ascii :=
  match String.get (Z.to_nat v) "0123456789abcdef" with
  | Some c => c
  | None => "0"%char
  end.

Fixpoint EncodeToString (src : list Z) : string :=
  match src with
  | [] => EmptyString
  | v :: rest =>
      String (hexdigit (Z.shiftr v 4))
        (String (hexdigit (Z.land v 15)) (EncodeToString rest))
  end.

(** [subtle.ConstantTimeByteEq]: [int((uint32(x^y) - 1) >> 31)] *)
Definition ConstantTimeByteEq (x y : Z) : Z :=
  Z.shiftr (w32 (Z.lxor x y - 1)) 31.

(** [subtle.ConstantTimeCompare]: 0 on different lengths, else the bytes'
    differences are or-ed together and compared with 0. *)
Definition ConstantTimeCompare (x y : list Z) : Z :=
  if negb (Nat.eqb (length x) (length y)) then 0
  else
    let v := foldl (fun v xy => Z.lor v (Z.lxor xy.1 xy.2)) 0 (zip x y) in
    ConstantTimeByteEq v 0.

(** [hmac.Equal] *)
Definition Equal (mac1 mac2 : list Z) : bool :=
  ConstantTimeCompare mac1 mac2 =? 1.

End Crypto.

(** ** package server *)

(** What [json.Unmarshal] stores in an [interface{}] *)
#[warnings="-register-all"] Inductive JSON : Type :=
| JNull
| JBool (b : bool)
| JNumber (literal : string)
| JString (s : string)
| JArray (elems : list JSON)
| JObject (members : list (string * JSON)).

(** Values handed to the HTML templates *)
Inductive TmplValue : Type :=
| VString (s : string)
| VHTML (s : string)
| VPages (ps : list Page)
| VTheme (t : ThemeConfig).

Record Request : Type := mkRequest {
  Header : gmap string (list string);   (* keys in canonical form *)
  Body : string + string;               (* [io.ReadAll(r.Body)] *)
  URLParams : list (string * string)    (* chi's route context, in the
                                           order the router added them *)
}.

Record Response : Type := mkResponse {
  StatusCode : Z;
  RHeader : list (string * string);
  RBody : string
}.

Record Server : Type := mkServer { cfg : Config }.

(** [*http.Request] as the middleware sees it: the request, the path of
    its URL and the value its context holds under [IsAdminContextKey], if
    one was stored *)
Record Routed : Type := mkRouted {
  Req : Request;
  URLPath : string;               (* [r.URL.Path] *)
  IsAdminValue : option bool      (* [r.Context().Value(IsAdminContextKey)] *)
}.

(** [http.Cookie], the fields the program sets; [Expires] in nanoseconds
    since the epoch, [SameSite] with Go's numbering (0 when left out,
    [SameSiteLaxMode = 2]) *)
Record Cookie : Type := mkCookie {
  CookieName : string;
  CookieValue : string;
  CookieExpires : Z;
  CookieHttpOnly : bool;
  CookiePath : string;
  CookieSameSite : Z
}.

(** [http.Handler] *)
Definition Handler : Type := Routed -> M Response.

Module Server.
Local Open Scope Z_scope.

Definition StatusOK : Z := 200.
Definition StatusAccepted : Z := 202.
Definition StatusFound : Z := 302.
Definition StatusBadRequest : Z := 400.
Definition StatusForbidden : Z := 403.
Definition StatusNotFound : Z := 404.
Definition StatusInternalServerError : Z := 500.

(** [http.Error]: plain-text headers, the status code, the message and a
    newline *)
Definition http_Error (msg : string) (code : Z) : Response :=
  mkResponse code
    [("Content-Type", "text/plain; charset=utf-8");
     ("X-Content-Type-Options", "nosniff")]
    (msg +:+ Content.newline).

(** [Header.Get]: the first value stored under the key, or [""] *)
Definition Get (h : gmap string (list string)) (key : string) : string :=
  match h !! key with
  | Some (v :: _) => v
  | _ => ""
  end.

(** [chi.URLParam]: the keys are searched from the last one added *)
Fixpoint url_param (rparams : list (string * string)) (key : string) : string :=
  match rparams with
  | [] => ""
  | (k, v) :: rest => if String.eqb k key then v else url_param rest key
  end.

Definition URLParam (r : Request) (key : string) : string :=
  url_param (rev (URLParams r)) key.

(** The route context chi builds for [POST /admin/pages/<segment>/toggle]
    as [RegisterRoutes] declares it: [r.Route("/admin", ...)] mounts the
    sub-router under the pattern [/admin/*], whose handler resets the value
    of that wildcard to the empty string before the sub-router matches
    [/pages/{pagePath}/toggle] and adds the key [pagePath]. *)
Definition toggle_route_params (segment : string) : list (string * string) :=
  [("*", ""); ("pagePath", segment)].

(** The goroutine started by [handleWebhook] *)
Definition pull_and_sync (s : Server) : M unit :=
  let* err := Content.PullRepo (cfg s) in
  match err with
  | Some e => log_line ("ERROR: Failed to pull repo: " +:+ error_string e)
  | None =>
      let* _ := log_line "Content repository pulled successfully." in
      let* err := Content.Sync (ContentPath (cfg s)) in
      match err with
      | Some e =>
          log_line ("ERROR: Failed to sync content after pull: "
                    +:+ error_string e)
      | None => log_line "Content sync complete."
      end
  end.

(** What a started goroutine does once it runs *)
Definition run_goroutine (s : Server) (g : Goroutine) : M unit :=
  match g with
  | GoIncrementVisitCount path => Database.IncrementVisitCount path
  | GoPullAndSync => pull_and_sync s
  end.

(** [http.Dir(root).Open(name)] then [io.ReadAll], for a registry path:
    the entry is looked up name by name below the content root. *)
Fixpoint find_entry (names : list string) (d : Entry) {struct names}
  : option Entry :=
  match names with
  | [] => Some d
  | n :: rest =>
      match d with
      | File _ _ => None
      | Dir _ dirs _ =>
          match List.find (fun d1 => String.eqb (Name d1) n) dirs with
          | Some d1 => find_entry rest d1
          | None => None
          end
      end
  end.

Definition Open (name : string) : M (option Entry) :=
  let* _ := modify (add_opened name) in
  let* w := get in
  match content w with
  | inl _ => ret None
  | inr root => ret (find_entry (GoString.Split name "/"%char) root)
  end.

Definition ReadAll (file : Entry) : string + string :=
  match file with
  | File _ data => data
  | Dir _ _ _ => inr "is a directory"
  end.

Section Handlers.
(** Libraries outside the repository: [json.Unmarshal] into a
    [map[string]interface{}] ([None] when it returns an error),
    goldmark's [Convert] and [html/template]'s [ExecuteTemplate] (the
    text written so far and the error, if any). *)
Variable json_Unmarshal : string -> option (gmap string JSON).
Variable md_Convert : string -> string + string.
Variable ExecuteTemplate :
  string -> gmap string TmplValue -> string * option string.

(** [render] *)
Definition render (s : Server) (name : string)
    (data : gmap string TmplValue) : M Response :=
  let* nav := Database.GetVisiblePages in
  match nav with
  | inr _ =>
      ret (http_Error "Could not fetch navigation" StatusInternalServerError)
  | inl navPages =>
      let data := <["NavPages" := VPages navPages]> data in
      let data := <["Theme" := VTheme (Theme (cfg s))]> data in
      match ExecuteTemplate name data with
      | (out, None) => ret (mkResponse StatusOK [] out)
      | (out, Some msg) =>
          let* _ := log_line ("Error rendering template " +:+ name +:+ ": "
                              +:+ msg) in
          let e := http_Error msg StatusInternalServerError in
          ret (if String.eqb out "" then e
               else mkResponse StatusOK [] (out +:+ RBody e))
      end
  end.

(** [renderPage] *)
Definition renderPage (s : Server) (r : Request) (pagePath : string)
  : M Response :=
  let* res := Database.GetPageByPath pagePath in
  match res with
  | inr _ => ret (http_Error "Page not found" StatusNotFound)
  | inl page =>
      if negb (IsVisible page)
      then ret (http_Error "Page not found" StatusNotFound)
      else
        let* file := Open (Path page) in
        match file with
        | None =>
            ret (http_Error "Could not read page content"
                   StatusInternalServerError)
        | Some file =>
            match ReadAll file with
            | inr _ =>
                ret (http_Error "Could not read page content"
                       StatusInternalServerError)
            | inl mdContent =>
                match md_Convert mdContent with
                | inr _ =>
                    ret (http_Error "Could not render page"
                           StatusInternalServerError)
                | inl html =>
                    let* _ := go (GoIncrementVisitCount (Path page)) in
                    let data : gmap string TmplValue :=
                      <["Title" := VString (Title page)]>
                        (<["Content" := VHTML html]> ∅) in
                    render s "page.html" data
                end
            end
        end
  end.

(** [handleWebhook] *)
Definition handleWebhook (s : Server) (r : Request) : M Response :=
  let signature := Get (Header r) "X-Hub-Signature-256" in
  if String.eqb signature "" then
    ret (http_Error "Missing signature" StatusBadRequest)
  else
    match Body r with
    | inr _ => ret (http_Error "Cannot read body" StatusInternalServerError)
    | inl body =>
        let mac :=
          Crypto.hmac_sha256
            (Crypto.bytes_of (GithubWebhookSecret (cfg s)))
            (Crypto.bytes_of body) in
        let expectedMAC := "sha256=" +:+ Crypto.EncodeToString mac in
        if negb (Crypto.Equal (Crypto.bytes_of signature)
                   (Crypto.bytes_of expectedMAC))
        then ret (http_Error "Invalid signature" StatusForbidden)
        else
          match json_Unmarshal body with
          | None => ret (http_Error "Invalid payload" StatusBadRequest)
          | Some payload =>
              let (ref, ok) :=
                match payload !! "ref" with
                | Some (JString ref) => (ref, true)
                | _ => ("", false)
                end in
              if negb ok
                 || (negb (String.eqb ref "refs/heads/main")
                     && negb (String.eqb ref "refs/heads/master"))
              then
                ret (mkResponse StatusOK []
                       "Payload received, but not for main/master branch. Ignoring.")
              else
                let* _ :=
                  log_line "Webhook validated. Triggering content update..." in
                let* _ := go GoPullAndSync in
                ret (mkResponse StatusAccepted []
                       "Webhook accepted. Processing update.")
          end
    end.

(** [handleAdminToggleVisibility] *)
Definition handleAdminToggleVisibility (s : Server) (r : Request)
  : M Response :=
  let pagePath := URLParam r "*" in
  if String.eqb pagePath "" then
    ret (http_Error "Page path is required" StatusBadRequest)
  else
    let pagePath :=
      if negb (GoString.HasSuffix pagePath ".md") then pagePath +:+ ".md"
      else pagePath in
    let* err := Database.ToggleVisibility pagePath in
    match err with
    | Some _ =>
        ret (http_Error "Failed to toggle visibility"
               StatusInternalServerError)
    | None =>
        ret (mkResponse StatusOK [("HX-Redirect", "/admin/dashboard")] "")
    end.

(** More of the libraries: [http.ServeFile] on a file name,
    [filepath.Join] on strings, [r.Cookie] (the value of the named cookie,
    [None] for [http.ErrNoCookie]), [r.FormValue] (which parses the form),
    [http.Redirect] and [Cookie.String]. *)
Variable http_ServeFile : Request -> string -> M Response.
Variable filepath_Join : string -> string -> string.
Variable r_Cookie : Request -> string -> option string.
Variable r_FormValue : Request -> string -> string.
Variable http_Redirect : Routed -> string -> Z -> Response.
Variable cookie_String : Cookie -> string.

(** [handleHomepage] *)
Definition handleHomepage (s : Server) (r : Request) : M Response :=
  renderPage s r "home.md".

(** [handlePageOrAsset] *)
Definition handlePageOrAsset (s : Server) (r : Request) : M Response :=
  let pagePath := URLParam r "*" in
  if GoString.HasPrefix pagePath "img/" || GoString.HasPrefix pagePath "assets/"
  then http_ServeFile r (filepath_Join (ContentPath (cfg s)) pagePath)
  else
    if negb (GoString.HasSuffix pagePath ".md") then
      if String.eqb pagePath "" then renderPage s r "home.md"
      else
        let pagePath := pagePath +:+ ".md" in
        renderPage s r pagePath
    else renderPage s r pagePath.

(** [handleAdminLogin] *)
Definition handleAdminLogin (s : Server) (r : Request) : M Response :=
  render s "admin_login.html" (<["Title" := VString "Admin Login"]> ∅).

(** [time.Hour], in nanoseconds *)
Definition Hour : Z := 3600 * 1000000000.

(** [http.SetCookie]: the header is added unless the cookie's text is
    empty (an invalid name); the headers set before the response is written
    go out with it. *)
Definition http_SetCookie (cookie : Cookie) (resp : Response) : Response :=
  let v := cookie_String cookie in
  if String.eqb v "" then resp
  else mkResponse (StatusCode resp) (("Set-Cookie", v) :: RHeader resp)
         (RBody resp).

(** [handleAdminLoginAttempt]; [now] is [time.Now()] *)
Definition handleAdminLoginAttempt (now : Z) (s : Server) (r : Routed)
  : M Response :=
  let password := r_FormValue (Req r) "password" in
  if String.eqb password (AdminSecret (cfg s)) then
    let expiration := now + 24 * Hour in
    let cookie := mkCookie "admin_session" "logged_in" expiration true "/" 2 in
    ret (http_SetCookie cookie
           (http_Redirect r "/admin/dashboard" StatusFound))
  else
    let data : gmap string TmplValue :=
      <["Title" := VString "Admin Login"]>
        (<["Error" := VString "Invalid password"]> ∅) in
    render s "admin_login.html" data.

(** [handleAdminLogout] *)
Definition handleAdminLogout (now : Z) (s : Server) (r : Routed)
  : M Response :=
  let cookie := mkCookie "admin_session" "" (now + (-1) * Hour) true "/" 0 in
  ret (http_SetCookie cookie
         (http_Redirect r (AdminLoginPath (cfg s)) StatusFound)).

(** [handleAdminDashboard] *)
Definition handleAdminDashboard (s : Server) (r : Request) : M Response :=
  let* res := Database.GetAllPages in
  match res with
  | inr _ =>
      ret (http_Error "Could not fetch pages" StatusInternalServerError)
  | inl pages =>
      let data : gmap string TmplValue :=
        <["Title" := VString "Admin Dashboard"]>
          (<["Pages" := VPages pages]> ∅) in
      render s "admin_dashboard.html" data
  end.

(** [context.WithValue(r.Context(), IsAdminContextKey, isAdmin)] and
    [r.WithContext] *)
Definition WithValue (isAdmin : bool) (r : Routed) : Routed :=
  mkRouted (Req r) (URLPath r) (Some isAdmin).

(** [AdminAuthMiddleware] *)
Definition AdminAuthMiddleware (s : Server) (next : Handler) : Handler :=
  fun r =>
    let isAdmin :=
      match r_Cookie (Req r) "admin_session" with
      | Some value => String.eqb value "logged_in"
      | None => false
      end in
    next (WithValue isAdmin r).

(** [RequireAdmin] *)
Definition RequireAdmin (s : Server) (next : Handler) : Handler :=
  fun r =>
    let (isAdmin, ok) :=
      match IsAdminValue r with
      | Some b => (b, true)
      | None => (false, false)
      end in
    if GoString.HasPrefix (URLPath r) (AdminLoginPath (cfg s)) then next r
    else if negb ok || negb isAdmin then
      ret (http_Redirect r (AdminLoginPath (cfg s)) StatusFound)
    else next r.

(** The chains [RegisterRoutes] builds: every route runs behind
    [AdminAuthMiddleware], those of the [/admin] group behind
    [RequireAdmin] as well. *)
Definition public_route (s : Server) (h : Handler) : Handler :=
  AdminAuthMiddleware s h.

Definition admin_route (s : Server) (h : Handler) : Handler :=
  AdminAuthMiddleware s (RequireAdmin s h).
End Handlers.

End Server.

(** ** Goroutines started by accepted deliveries

    [handleWebhook] starts one goroutine per accepted delivery for a tracked
    branch (lines 203-215) and takes no lock.  Each goroutine calls
    [content.PullRepo], which runs [git pull] and waits for it, and, when
    that succeeds, [content.Sync].  The pool below records where each
    goroutine stands; any goroutine may take its next step at any time. *)

Module Scheduler.

Inductive Phase : Type :=
| Started        (* the goroutine exists, [PullRepo] is not yet called *)
| Pulling        (* inside [content.PullRepo], [git pull] is running *)
| Reconciling    (* inside [content.Sync] *)
| Finished.

(** The body of the goroutine, cut at the two calls during which it waits:
    the step a goroutine takes from a phase, and the phase it reaches. *)
Definition step_of (s : Server) (p : Phase) : M Phase :=
  match p with
  | Started =>
      let* _ := log_line "Pulling latest changes from repository..." in
      ret Pulling
  | Pulling =>
      let* w := get in
      match remote w with
      | [] =>
          let* _ := log_line "Content repository pulled successfully." in
          ret Reconciling
      | PullFailed output status :: rest =>
          let* _ := modify (set_remote rest) in
          let e := Errno ("git pull failed: " +:+ output +:+ Content.newline
                          +:+ status) in
          let* _ := log_line ("ERROR: Failed to pull repo: " +:+ error_string e) in
          ret Finished
      | PullOk tree :: rest =>
          let* _ := modify (set_remote rest) in
          let* _ := modify (set_content tree) in
          let* _ := log_line "Content repository pulled successfully." in
          ret Reconciling
      end
  | Reconciling =>
      let* err := Content.Sync (ContentPath (cfg s)) in
      let* _ :=
        match err with
        | Some e =>
            log_line ("ERROR: Failed to sync content after pull: "
                      +:+ error_string e)
        | None => log_line "Content sync complete."
        end in
      ret Finished
  | Finished => ret Finished
  end.

(** The steps in a row, as a goroutine that is never preempted takes them *)
Definition run_alone (s : Server) : M unit :=
  let* p1 := step_of s Started in
  let* p2 := step_of s p1 in
  let* _ := step_of s p2 in
  ret tt.

Inductive Event : Type :=
| EvAccepted (i : nat)       (* 202 answered, goroutine [i] started *)
| EvPullStart (i : nat)
| EvPullFailed (i : nat)
| EvPullOk (i : nat)
| EvSyncEnd (i : nat).

(** The event of a step of goroutine [i] from one phase to another *)
Definition event (i : nat) (p p' : Phase) : Event :=
  match p, p' with
  | Started, _ => EvPullStart i
  | Pulling, Reconciling => EvPullOk i
  | Pulling, _ => EvPullFailed i
  | _, _ => EvSyncEnd i
  end.

Record Pool : Type := mkPool {
  world : World;
  phases : list Phase;
  trace : list Event        (* oldest event first *)
}.

Definition start (w : World) : Pool := mkPool w [] [].

Definition is_Finished (p : Phase) : bool :=
  match p with Finished => true | _ => false end.

(** A delivery is accepted: [handleWebhook] logs and starts a goroutine. *)
Definition accept (p : Pool) : Pool :=
  mkPool
    (add_goroutine GoPullAndSync
       (add_log "Webhook validated. Triggering content update..." (world p)))
    (phases p ++ [Started])
    (trace p ++ [EvAccepted (length (phases p))]).

(** Goroutine [i] takes its next step. *)
Definition run (s : Server) (i : nat) (p : Pool) : Pool :=
  match phases p !! i with
  | Some ph =>
      mkPool (step_of s ph (world p)).2
        (<[i := (step_of s ph (world p)).1]> (phases p))
        (trace p ++ [event i ph (step_of s ph (world p)).1])
  | None => p
  end.

Inductive step (s : Server) : Pool -> Pool -> Prop :=
| step_accept p : step s p (accept p)
| step_run p i ph :
    phases p !! i = Some ph ->
    is_Finished ph = false ->
    step s p (run s i p).

Definition reachable (s : Server) (w : World) (p : Pool) : Prop :=
  rtc (step s) (start w) p.







(** Two deliveries: both are accepted, the first goroutine starts its pull
    and sees it succeed, then the second one starts its pull. *)
Definition overlap (s : Server) (w : World) : Pool :=
  run s 1 (run s 0 (run s 0 (accept (accept (start w))))).

(** The second goroutine pulls before the first one reconciles. *)
Definition overtaken (s : Server) (w : World) : Pool :=
  run s 0 (run s 1 (overlap s w)).

End Scheduler.

(** ** The specification's wording of the derived functions *)

Module Spec.
Import GoString.

Definition is_slash (c : ascii) : bool := Ascii.eqb c "/"%char.
Definition is_dot (c : ascii) : bool := Ascii.eqb c "."%char.

Fixpoint plain (s : string) : bool :=
  match s with
  | EmptyString => true
  | String c s' => negb (is_slash c) && negb (is_dot c) && plain s'
  end.






(** Letters and digits make up words; the case of a letter *)
Definition in_range (lo hi : nat) (c : ascii) : bool :=
  (lo <=? nat_of_ascii c)%nat && (nat_of_ascii c <=? hi)%nat.


Definition upper (c : ascii) : ascii :=
  if in_range 97 122 c then ascii_of_nat (nat_of_ascii c - 32) else c.

(** Words are the maximal runs of letters and digits; every other byte
    stands between words. *)
Inductive token : Type :=
| Word (w : string)
| Between (c : ascii).


Definition capitalize (w : string) : string :=
  match w with
  | EmptyString => EmptyString
  | String c w' => String (upper c) w'
  end.

Definition show_token (t : token) : string :=
  match t with
  | Word w => capitalize w
  | Between c => String c EmptyString
  end.

Definition render (ts : list token) : string :=
  foldr (fun t acc => show_token t +:+ acc) EmptyString ts.






(** The markdown files of a tree, by their slash-separated paths below the
    root, in the order of the listings. *)
Definition slash_path (path : Content.WalkPath) : string :=
  match path with
  | [] => "."
  | _ => String.concat "/" path
  end.

Fixpoint md_files (path : Content.WalkPath) (d : Entry) : list string :=
  match d with
  | File n _ => if HasSuffix n ".md" then [slash_path path] else []
  | Dir _ dirs _ =>
      (fix each (dirs : list Entry) : list string :=
         match dirs with
         | [] => []
         | d1 :: rest => md_files (path ++ [Name d1]) d1 ++ each rest
         end) dirs
  end.

(** Every directory of the tree can be listed. *)
Fixpoint readable (d : Entry) : bool :=
  match d with
  | File _ _ => true
  | Dir _ dirs readErr =>
      match readErr with Some _ => false | None => true end
      && (fix each (dirs : list Entry) : bool :=
            match dirs with
            | [] => true
            | d1 :: rest => readable d1 && each rest
            end) dirs
  end.

(** Upsert one path after the other, logging each and each failure. *)
Fixpoint upsert_each (paths : list string) : M unit :=
  match paths with
  | [] => ret tt
  | p :: rest =>
      let* _ := log_line ("Found markdown file: " +:+ p) in
      let* err := Database.UpsertPage p in
      let* _ :=
        match err with
        | Some e =>
            log_line ("Failed to upsert page " +:+ p +:+ ": " +:+ error_string e)
        | None => ret tt
        end in
      upsert_each rest
  end.

End Spec.

(** ** Runs used to state the properties *)

Module Run.

(** [n] calls of [UpsertPage] on the same path, with what each returned *)
Fixpoint upsert_times (n : nat) (path : string) : M (list (option error)) :=
  match n with
  | O => ret []
  | S k =>
      let* e := Database.UpsertPage path in
      let* es := upsert_times k path in
      ret (e :: es)
  end.

Definition succeeded (e : option error) : bool :=
  match e with None => true | Some _ => false end.

(** The rows of the table stored under a path *)
Definition rows_at (path : string) (t : gmap string Row) : list (string * Row) :=
  filter (fun kv => kv.1 = path) (map_to_list t).

(** The answer of the driver to the next statement *)
Definition next_fault (w : World) : option string :=
  match faults w with
  | [] => None
  | o :: _ => o
  end.

(** The signature the sender computes: [sha256=] followed by the
    lowercase-hex HMAC-SHA256 of the body under the secret *)
Definition sign (secret body : string) : string :=
  "sha256="
  +:+ Crypto.EncodeToString
        (Crypto.hmac_sha256 (Crypto.bytes_of secret) (Crypto.bytes_of body)).

(** A request with the given signature header and body *)
Definition delivery (signature body : string) : Request :=
  mkRequest {[ "X-Hub-Signature-256" := [signature] ]} (inl body) [].

(** A small JSON decoder, enough to run the handler on a push event: an
    object whose members are strings, numbers, [true], [false] or [null]
    (or the literal [null]); anything else is refused. *)
Definition quote : ascii := "034"%char.
Definition backslash : ascii := "092"%char.

Definition is_ws (c : ascii) : bool :=
  Ascii.eqb c " "%char || Ascii.eqb c "009"%char
  || Ascii.eqb c "010"%char || Ascii.eqb c "013"%char.

Fixpoint skip_ws (l : list ascii) : list ascii :=
  match l with
  | c :: l' => if is_ws c then skip_ws l' else l
  | [] => []
  end.

(** The text of a string up to its closing quote, and what follows *)
Fixpoint read_string (l acc : list ascii) : option (string * list ascii) :=
  match l with
  | [] => None
  | c :: l' =>
      if Ascii.eqb c quote then Some (GoString.str (rev acc), l')
      else if Ascii.eqb c backslash then
        match l' with
        | e :: l'' =>
            if Ascii.eqb e quote || Ascii.eqb e backslash || Ascii.eqb e "/"%char
            then read_string l'' (e :: acc)
            else None
        | [] => None
        end
      else read_string l' (c :: acc)
  end.

Fixpoint read_literal (l acc : list ascii) : list ascii * list ascii :=
  match l with
  | c :: l' =>
      if is_ws c || Ascii.eqb c ","%char || Ascii.eqb c "}"%char
      then (rev acc, l)
      else read_literal l' (c :: acc)
  | [] => (rev acc, [])
  end.

Definition is_number_char (c : ascii) : bool :=
  existsb (Ascii.eqb c) (list_ascii_of_string "-+.eE0123456789").

Definition read_value (l : list ascii) : option (JSON * list ascii) :=
  match skip_ws l with
  | [] => None
  | c :: l' =>
      if Ascii.eqb c quote then
        match read_string l' [] with
        | Some (s, rest) => Some (JString s, rest)
        | None => None
        end
      else
        let (lit, rest) := read_literal (c :: l') [] in
        let text := GoString.str lit in
        if String.eqb text "true" then Some (JBool true, rest)
        else if String.eqb text "false" then Some (JBool false, rest)
        else if String.eqb text "null" then Some (JNull, rest)
        else if negb (String.eqb text "") && forallb is_number_char lit
             then Some (JNumber text, rest)
        else None
  end.

Fixpoint read_members (fuel : nat) (l : list ascii) (m : gmap string JSON)
  : option (gmap string JSON) :=
  match fuel with
  | O => None
  | S fuel' =>
      match skip_ws l with
      | c :: l1 =>
          if Ascii.eqb c quote then
            match read_string l1 [] with
            | Some (key, l2) =>
                match skip_ws l2 with
                | c2 :: l3 =>
                    if Ascii.eqb c2 ":"%char then
                      match read_value l3 with
                      | Some (v, l4) =>
                          match skip_ws l4 with
                          | c4 :: l5 =>
                              if Ascii.eqb c4 ","%char
                              then read_members fuel' l5 (<[key := v]> m)
                              else if Ascii.eqb c4 "}"%char
                              then match skip_ws l5 with
                                   | [] => Some (<[key := v]> m)
                                   | _ => None
                                   end
                              else None
                          | [] => None
                          end
                      | None => None
                      end
                    else None
                | [] => None
                end
            | None => None
            end
          else None
      | [] => None
      end
  end.

Definition decode (body : string) : option (gmap string JSON) :=
  let l := skip_ws (list_ascii_of_string body) in
  match l with
  | c :: l1 =>
      if Ascii.eqb c "{"%char then
        match skip_ws l1 with
        | c1 :: l2 =>
            if Ascii.eqb c1 "}"%char
            then match skip_ws l2 with [] => Some ∅ | _ => None end
            else read_members (length l1) l1 ∅
        | [] => None
        end
      else if String.eqb (GoString.str (fst (read_literal l []))) "null"
           then match skip_ws (snd (read_literal l [])) with
                | [] => Some ∅
                | _ => None
                end
      else None
  | [] => None
  end.

(** The body of a push event for a branch reference *)
Definition push_event (ref : string) : string :=
  "{" +:+ String quote "ref" +:+ String quote ":" +:+ String quote ref
  +:+ String quote "," +:+ String quote "before" +:+ String quote ":"
  +:+ String quote "0000" +:+ String quote "}".

(** A server with the given webhook secret *)
Definition server (secret : string) : Server :=
  mkServer (mkConfig "./gmd-data.db" "./content" "git@example.org:me/notes.git"
              "/app/secrets/key" secret "admin" "/admin-login"
              (mkTheme "/static/img/logo.svg" "#3498db" "Inter")).

(** A list of bytes *)
Definition is_bytes (l : list Z) : Prop := Forall (fun b => (0 <= b < 256)%Z) l.


(** The lines [Sync] logs for a file *)
Definition found (p : string) : string := "Found markdown file: " +:+ p.
Definition failed (p msg : string) : string :=
  "Failed to upsert page " +:+ p +:+ ": " +:+ msg.

(** From [w] to [w'] the log only grows, and the rows are the same but for
    new ones with the derived title, visible and never visited. *)
Definition grows (w w' : World) : Prop :=
  (forall l, l ∈ logs w -> l ∈ logs w')
  /\ (forall q,
        pages w' !! q = pages w !! q
        \/ (pages w !! q = None
            /\ pages w' !! q = Some (mkRow (Database.pathToTitle q) true 0))).

(** A world with an empty registry, a healthy driver and no content yet *)
Definition fresh : World :=
  mkWorld ∅ [] (inl "lstat content: no such file or directory") [] [] [] [].

(** A working copy: two pages, a text file and an image *)
Definition sample_tree : Entry :=
  Dir "content"
    [Dir "blog" [File "notes.txt" (inl "todo"); File "post.md" (inl "# Post")] None;
     File "home.md" (inl "# Home");
     Dir "img" [File "logo.png" (inl "")] None]
    None.

(** The working copy after a later push: the home page is gone *)
Definition later_tree : Entry :=
  Dir "content" [File "about.md" (inl "# About")] None.

(** The same world holding the given rows, the driver answering the next
    statements as listed *)
Definition registry (rows : list (string * Row)) (fs : list (option string))
  : World :=
  set_faults fs (set_pages (fun _ => list_to_map rows) fresh).

(** The driver runs the next [n] statements *)
Definition healthy (n : nat) (w : World) : bool :=
  forallb (fun o : option string =>
             match o with None => true | Some _ => false end)
    (take n (faults w)).


(** A row of the table as [GetAllPages] scans it *)
Definition page_of (kv : string * Row) : Page :=
  mkPage kv.1 (title kv.2) (is_visible kv.2) (visit_count kv.2).

(** The navigation entry of a page: its display path and its title *)
Definition nav_entry (pg : Page) : Page :=
  let p := GoString.TrimSuffix (Path pg) ".md" in
  mkPage (if String.eqb p "home" then "/" else p) (Title pg) false 0.


(** The line [IncrementVisitCount] logs when the driver fails *)
Definition lost_visit (path msg : string) : string :=
  "Error incrementing visit count for " +:+ path +:+ ": " +:+ msg.


(** A name without a path separator *)
Definition no_slash (s : string) : bool :=
  forallb (fun c => negb (Filepath.IsPathSeparator c)) (GoString.bytes s).

(** The markdown files below the entries of a listing, in the order of
    the walk *)
Definition files_of (path : Content.WalkPath) (dirs : list Entry) : list string :=
  flat_map (fun d1 => Spec.md_files (path ++ [Name d1]) d1) dirs.

(** The text [renderPage] reads for a path: what the file found by its
    names below the content root holds *)
Definition page_text (w : World) (p : string) : option string :=
  match content w with
  | inr root =>
      match Server.find_entry (GoString.Split p "/"%char) root with
      | Some file =>
          match Server.ReadAll file with
          | inl data => Some data
          | inr _ => None
          end
      | None => None
      end
  | inl _ => None
  end.

(** A request for a path gets as far as the conversion of its markdown:
    the driver answers, the row is there and visible, the file can be
    read and converted. *)
Definition counted (md_Convert : string -> string + string)
    (w : World) (p : string) : bool :=
  match next_fault w, pages w !! p with
  | None, Some row =>
      is_visible row
      && match page_text w p with
         | Some text =>
             match md_Convert text with inl _ => true | inr _ => false end
         | None => false
         end
  | _, _ => false
  end.

(** The flag [AdminAuthMiddleware] stores for a request *)
Definition is_admin (r_Cookie : Request -> string -> option string)
    (r : Routed) : bool :=
  match r_Cookie (Req r) "admin_session" with
  | Some value => String.eqb value "logged_in"
  | None => false
  end.

(** The variables [Load] requires, in the order it reads them, and
    whether one is unset or empty *)
Definition required : list string :=
  ["GIT_REPO_URL"; "GIT_SSH_KEY_PATH"; "GITHUB_WEBHOOK_SECRET"; "ADMIN_SECRET"].

Definition missing (env : Environ) (key : string) : bool :=
  String.eqb (Config.Getenv env key) "".

(** A request with the given route parameters *)
Definition routed_to (params : list (string * string)) : Request :=
  mkRequest ∅ (inl "") params.

(** Stand-ins for the libraries, used to run the handlers: markdown passed
    through, a template that prints its name, a cookie reader on a request
    whose [Cookie] header holds one [name=value] pair at most, a cookie
    printed as [name=value], a redirect with its [Location], a form whose
    only field is the body, a file server that finds nothing. *)
Definition plain_markdown (text : string) : string + string := inl text.

Definition named_template (name : string) (data : gmap string TmplValue)
  : string * option string := (name, None).

Definition one_cookie (r : Request) (name : string) : option string :=
  match Server.Get (Header r) "Cookie" with
  | EmptyString => None
  | line =>
      if GoString.HasPrefix line (name +:+ "=")
      then Some (GoString.slice_from (GoString.len name + 1) line)
      else None
  end.

Definition printed_cookie (c : Cookie) : string :=
  CookieName c +:+ "=" +:+ CookieValue c.

Definition located (r : Routed) (url : string) (code : Z) : Response :=
  mkResponse code [("Location", url)] "".

Definition body_field (r : Request) (key : string) : string :=
  match Body r with
  | inl body => body
  | inr _ => ""
  end.

Definition no_file (r : Request) (name : string) : M Response :=
  ret (Server.http_Error "404 page not found" Server.StatusNotFound).

Definition joined (dir name : string) : string := dir +:+ "/" +:+ name.

(** A request for the dashboard with the given [Cookie] header *)
Definition dashboard_visit (cookies : list string) : Routed :=
  mkRouted (mkRequest {[ "Cookie" := cookies ]} (inl "") []) "/admin/dashboard"
    None.

(** The dashboard as a route handler *)
Definition dashboard : Handler :=
  fun r => Server.handleAdminDashboard named_template (server "s3cret") (Req r).

(** The server whose login path is [/admin] *)
Definition open_server : Server :=
  mkServer (mkConfig "./gmd-data.db" "./content" "git@example.org:me/notes.git"
              "/app/secrets/key" "s3cret" "admin" "/admin"
              (mkTheme "/static/img/logo.svg" "#3498db" "Inter")).

(** The environment of a deployment that sets the required variables
    only *)
Definition minimal_env : Environ :=
  list_to_map [("GIT_REPO_URL", "git@example.org:me/notes.git");
               ("GIT_SSH_KEY_PATH", "/app/secrets/key");
               ("GITHUB_WEBHOOK_SECRET", "s3cret");
               ("ADMIN_SECRET", "admin")].

(** A login attempt with the given password *)
Definition attempt (password : string) : Routed :=
  mkRouted (mkRequest ∅ (inl password) []) "/admin-login" (Some false).





End Run.

(** * Properties *)

(** ** The state monad *)

Lemma bind_run {A B} (c : M A) (k : A -> M B) (w : World) :
  bind c k w = k (c w).1 (c w).2.
Proof. unfold bind. by destruct (c w). Qed.

(** Run the binds of a monadic computation applied to a world *)
Ltac mrun := repeat (progress (rewrite ?bind_run; simpl)).

(** ** The registry *)

Section registry.
Import Database Run.

Lemma driver_run w :
  driver w = (next_fault w, set_faults (tail (faults w)) w).
Proof.
  unfold driver, next_fault. destruct w as [p f c r l o g]; simpl.
  by destruct f.
Qed.

Lemma Exec_run stmt w :
  Exec stmt w =
    match next_fault w with
    | Some msg => (Some (Errno msg), set_faults (tail (faults w)) w)
    | None => (None, set_pages stmt (set_faults (tail (faults w)) w))
    end.
Proof.
  unfold Exec. rewrite bind_run, driver_run; simpl.
  by destruct (next_fault w).
Qed.

Lemma Exec_pages stmt w :
  pages (Exec stmt w).2 =
    if Run.succeeded (Exec stmt w).1 then stmt (pages w) else pages w.
Proof. rewrite Exec_run. by destruct (next_fault w). Qed.

Lemma Exec_ok_iff stmt w : (Exec stmt w).1 = None <-> next_fault w = None.
Proof. rewrite Exec_run. destruct (next_fault w); simpl; split; congruence. Qed.

Lemma Query_run {A} (q : gmap string Row -> A) w :
  Query q w =
    (match next_fault w with
     | Some msg => inr (Errno msg)
     | None => inl (q (pages w))
     end, set_faults (tail (faults w)) w).
Proof.
  unfold Query. rewrite bind_run, driver_run; simpl.
  by destruct (next_fault w).
Qed.

Lemma insert_or_ignore_present path ttl t r :
  t !! path = Some r -> insert_or_ignore path ttl t = t.
Proof. intros H. unfold insert_or_ignore. by rewrite H. Qed.

Lemma insert_or_ignore_lookup path ttl t :
  insert_or_ignore path ttl t !! path
  = Some (default (mkRow ttl true 0) (t !! path)).
Proof.
  unfold insert_or_ignore. destruct (t !! path) as [r|] eqn:H; simpl.
  - done.
  - apply lookup_insert_eq.
Qed.

Lemma insert_or_ignore_other path ttl t q :
  q <> path -> insert_or_ignore path ttl t !! q = t !! q.
Proof.
  intros Hne. unfold insert_or_ignore. destruct (t !! path); [done|].
  by rewrite lookup_insert_ne.
Qed.

Lemma insert_or_ignore_twice path ttl ttl' t :
  insert_or_ignore path ttl' (insert_or_ignore path ttl t)
  = insert_or_ignore path ttl t.
Proof.
  eapply insert_or_ignore_present, insert_or_ignore_lookup.
Qed.

(** A path is the key of at most one row, and of exactly one when the
    lookup finds it. *)
Lemma rows_at_lookup path t r :
  t !! path = Some r -> rows_at path t = [(path, r)].
Proof.
  intros H. unfold rows_at.
  assert (Hnd : NoDup (filter (fun kv : string * Row => kv.1 = path) (map_to_list t))).
  { apply NoDup_filter, NoDup_map_to_list. }
  assert (Hin : forall kv, kv ∈ filter (fun kv : string * Row => kv.1 = path)
                              (map_to_list t) <-> kv = (path, r)).
  { intros [k v]. rewrite list_elem_of_filter, elem_of_map_to_list; simpl.
    split.
    - intros [-> Hv]. congruence.
    - intros [= -> ->]. done. }
  destruct (filter _ (map_to_list t)) as [|a l] eqn:E.
  - specialize (Hin (path, r)). rewrite elem_of_nil in Hin. tauto.
  - assert (a = (path, r)) as -> by (apply Hin; left).
    destruct l as [|b l]; [done|].
    assert (b = (path, r)) as -> by (apply Hin; right; left).
    apply NoDup_cons in Hnd as [Hnd _]. exfalso. apply Hnd. left.
Qed.

Lemma rows_at_absent path t : t !! path = None -> rows_at path t = [].
Proof.
  intros H. unfold rows_at.
  destruct (filter _ (map_to_list t)) as [|[k v] l] eqn:E; [done|].
  assert (Hin : (k, v) ∈ filter (fun kv : string * Row => kv.1 = path)
                  (map_to_list t)) by (rewrite E; left).
  rewrite list_elem_of_filter, elem_of_map_to_list in Hin; simpl in Hin.
  destruct Hin as [-> Hv]. congruence.
Qed.

Lemma upsert_times_pages n path w :
  pages (upsert_times n path w).2 =
    if existsb succeeded (upsert_times n path w).1
    then insert_or_ignore path (pathToTitle path) (pages w)
    else pages w.
Proof.
  revert w. induction n as [|n IH]; intros w; [done|].
  simpl. rewrite bind_run, bind_run. simpl.
  rewrite IH. unfold UpsertPage.
  rewrite (Exec_pages _ w).
  destruct (succeeded (Exec _ w).1); simpl.
  - rewrite insert_or_ignore_twice. by destruct (existsb _ _).
  - done.
Qed.

End registry.

(** ** Go strings as byte lists *)

Section gostring.
Import GoString.

Lemma str_bytes s : str (bytes s) = s.
Proof. apply string_of_list_ascii_of_string. Qed.

Lemma bytes_str l : bytes (str l) = l.
Proof. apply list_ascii_of_string_of_list_ascii. Qed.

Lemma bytes_inj s1 s2 : bytes s1 = bytes s2 -> s1 = s2.
Proof. intros H. rewrite <- (str_bytes s1), <- (str_bytes s2). by rewrite H. Qed.

Lemma bytes_app s1 s2 : bytes (s1 +:+ s2) = bytes s1 ++ bytes s2.
Proof. induction s1 as [|c s1 IH]; simpl; [done|]. unfold bytes in *. by rewrite IH. Qed.

Lemma str_app l1 l2 : str (l1 ++ l2) = str l1 +:+ str l2.
Proof. apply bytes_inj. by rewrite bytes_app, !bytes_str. Qed.

Lemma len_bytes s : len s = length (bytes s).
Proof. induction s as [|c s IH]; simpl; [done|]. unfold len, bytes in *. by rewrite IH. Qed.

Lemma len_app s1 s2 : len (s1 +:+ s2) = (len s1 + len s2)%nat.
Proof. by rewrite !len_bytes, bytes_app, length_app. Qed.

Lemma HasSuffix_iff s suffix :
  HasSuffix s suffix = true <-> exists p, s = p +:+ suffix.
Proof.
  unfold HasSuffix. rewrite andb_true_iff, Nat.leb_le, String.eqb_eq.
  unfold slice_from. rewrite !len_bytes. split.
  - intros [Hle Heq].
    remember (length (bytes s) - length (bytes suffix))%nat as n eqn:Hn.
    exists (str (take n (bytes s))). rewrite <- Heq, <- str_app, take_drop.
    by rewrite str_bytes.
  - intros [p ->]. rewrite bytes_app, length_app. split; [lia|].
    replace (length (bytes p) + length (bytes suffix) - length (bytes suffix))%nat
      with (length (bytes p)) by lia.
    by rewrite drop_app_length, str_bytes.
Qed.

Lemma HasSuffix_app p suffix : HasSuffix (p +:+ suffix) suffix = true.
Proof. apply HasSuffix_iff. by exists p. Qed.

Lemma TrimSuffix_app p suffix : TrimSuffix (p +:+ suffix) suffix = p.
Proof.
  unfold TrimSuffix. rewrite HasSuffix_app. unfold slice_to.
  rewrite len_app, !len_bytes, bytes_app.
  replace (length (bytes p) + length (bytes suffix) - length (bytes suffix))%nat
    with (length (bytes p)) by lia.
  by rewrite take_app_length, str_bytes.
Qed.

Lemma app_empty_r s : s +:+ "" = s.
Proof. apply bytes_inj. rewrite bytes_app. apply app_nil_r. Qed.

End gostring.

(** ** Listing the visible pages *)

Section listing.
Import GoString Database Run.

#[local] Instance path_le_trans : Transitive path_le.
Proof. intros a b c. unfold path_le. apply transitivity. Qed.

#[local] Instance path_le_total : Total path_le.
Proof. intros a b. unfold path_le. apply total, _. Qed.

Lemma order_by_path_perm l : order_by_path l ≡ₚ l.
Proof. apply merge_sort_Permutation. Qed.

Lemma order_by_path_sorted l : StronglySorted path_le (order_by_path l).
Proof. apply StronglySorted_merge_sort; apply _. Qed.





End listing.

Section registry_claims.
Import GoString Database Run.

(** C3: [UpsertPage] is idempotent.  After any number of calls on one path
    of which at least one went through, the table holds exactly one row
    under that path: the row it held before the calls (title and
    visibility untouched, so a title is never recomputed), or else the row
    with the title derived from the path, visible, never visited.  No other
    row changes, a call on a path already present changes nothing, and
    neither does one more call. *)
Theorem UpsertPage_idempotent (path : string) (n : nat) (w : World)
    (Hok : existsb succeeded (upsert_times n path w).1 = true) :
  let w' := (upsert_times n path w).2 in
  let row := default (mkRow (pathToTitle path) true 0) (pages w !! path) in
  rows_at path (pages w') = [(path, row)]
  /\ (forall q, q <> path -> pages w' !! q = pages w !! q)
  /\ (is_Some (pages w !! path) -> pages w' = pages w)
  /\ pages (UpsertPage path w').2 = pages w'.
Proof.
  intros w' row. subst w'.
  pose proof (upsert_times_pages n path w) as Hp. rewrite Hok in Hp.
  rewrite Hp. repeat split.
  - apply rows_at_lookup, insert_or_ignore_lookup.
  - intros q Hq. by apply insert_or_ignore_other.
  - intros [r Hr]. by eapply insert_or_ignore_present.
  - unfold UpsertPage. rewrite Exec_pages, Hp.
    destruct (succeeded _); [apply insert_or_ignore_twice | done].
Qed.

Lemma UpsertPage_idempotent_witness :
  let w := registry [("about.md", mkRow "About us" false 7)]
             [Some "database is locked"; None] in
  rows_at "home.md" (pages (upsert_times 3 "home.md" w).2)
    = [("home.md", mkRow "Home" true 0)]
  /\ rows_at "about.md" (pages (upsert_times 2 "about.md" w).2)
    = [("about.md", mkRow "About us" false 7)].
Proof.
  intros w. split.
  - refine (proj1 (UpsertPage_idempotent "home.md" 3 w _)). reflexivity.
  - refine (proj1 (UpsertPage_idempotent "about.md" 2 w _)). reflexivity.
Defined.

Lemma ToggleVisibility_error path w e :
  (ToggleVisibility path w).1 = Some e ->
  next_fault w = Some (error_string e)
  /\ pages (ToggleVisibility path w).2 = pages w.
Proof.
  unfold ToggleVisibility. rewrite Exec_run.
  destruct (next_fault w) as [msg|]; simpl; [|done].
  intros [= <-]. done.
Qed.

(** C4, as the code has it: when the driver runs the statement,
    [ToggleVisibility] returns no error whether or not the path has a row.
    Without a row the registry is unchanged; with one, the row's visibility
    is negated and nothing else changes, and a second call restores the
    registry. *)
Theorem ToggleVisibility_flips (path : string) (w : World)
    (Hrun : next_fault w = None) :
  let w' := (ToggleVisibility path w).2 in
  (ToggleVisibility path w).1 = None
  /\ (pages w !! path = None -> pages w' = pages w)
  /\ (forall r, pages w !! path = Some r ->
        pages w' !! path
        = Some (mkRow (title r) (negb (is_visible r)) (visit_count r)))
  /\ (forall q, q <> path -> pages w' !! q = pages w !! q)
  /\ (next_fault w' = None -> pages (ToggleVisibility path w').2 = pages w).
Proof.
  intros w'. subst w'. unfold ToggleVisibility.
  assert (Hp : pages (Exec (alter flip_visible path) w).2
               = alter flip_visible path (pages w)).
  { rewrite Exec_pages. by rewrite (proj2 (Exec_ok_iff _ w) Hrun). }
  split; [by apply Exec_ok_iff|]. rewrite Hp. repeat split.
  - intros Hnone. apply map_eq. intros q. rewrite lookup_alter.
    case_decide; [|done]. subst q. by rewrite Hnone.
  - intros r Hr. rewrite lookup_alter. case_decide; [|done]. by rewrite Hr.
  - intros q Hq. rewrite lookup_alter. case_decide; [congruence|done].
  - intros Hrun'. rewrite Exec_pages.
    rewrite (proj2 (Exec_ok_iff _ _) Hrun'). simpl. rewrite Hp.
    apply map_eq. intros q. rewrite !lookup_alter.
    repeat case_decide; try done. subst q.
    destruct (pages w !! path) as [[t v c]|]; simpl; [|done].
    unfold flip_visible; simpl. by rewrite negb_involutive.
Qed.

Lemma ToggleVisibility_flips_witness :
  let w := registry [("home.md", mkRow "Home" true 3)] [] in
  pages (ToggleVisibility "home.md" w).2 !! "home.md"
  = Some (mkRow "Home" false 3).
Proof.
  intros w.
  refine (proj1 (proj2 (proj2 (ToggleVisibility_flips "home.md" w _)))
            (mkRow "Home" true 3) _); reflexivity.
Defined.

(** C4 as stated fails: on a path without a row the call reports no error. *)
Lemma ToggleVisibility_absent_counterexample :
  pages fresh !! "ghost.md" = None
  /\ ~ (exists e, (ToggleVisibility "ghost.md" fresh).1 = Some e).
Proof. split; [reflexivity|]. intros [e He]. vm_compute in He. discriminate. Qed.



End registry_claims.

(** ** Title derivation *)

Section title.
Import GoString Filepath Database.

Lemma append_cons c a b : String c a +:+ b = String c (a +:+ b).
Proof. reflexivity. Qed.

Lemma append_nil b : "" +:+ b = b.
Proof. reflexivity. Qed.

Lemma TrimSuffix_empty s : TrimSuffix s "" = s.
Proof. rewrite <- (app_empty_r s) at 1. apply TrimSuffix_app. Qed.

(** *** The extension *)


Lemma ext_scan_plain e r acc :
  Spec.plain e = true ->
  ext_scan (rev (bytes e) ++ r) acc = ext_scan r (bytes e ++ acc).
Proof.
  revert r acc. induction e as [|c e IH]; intros r acc He; [done|].
  simpl in He. apply andb_true_iff in He as [Hc He].
  apply andb_true_iff in Hc as [Hs Hd].
  change (bytes (String c e)) with (c :: bytes e). simpl rev.
  rewrite <- app_assoc. rewrite IH by done. simpl.
  unfold Spec.is_slash, Spec.is_dot in *. unfold IsPathSeparator.
  destruct (Ascii.eqb c "/"); [done|]. destruct (Ascii.eqb c "."); done.
Qed.

Lemma Ext_plain e : Spec.plain e = true -> Ext e = "".
Proof.
  intros He. unfold Ext. rewrite <- (app_nil_r (rev (bytes e))).
  by rewrite ext_scan_plain.
Qed.

Lemma Ext_dot p e :
  Spec.plain e = true -> Ext (p +:+ String "." e) = String "." e.
Proof.
  intros He. unfold Ext. rewrite bytes_app.
  change (bytes (String "." e)) with ("."%char :: bytes e).
  rewrite rev_app_distr. simpl rev. rewrite <- !app_assoc.
  rewrite ext_scan_plain by done. simpl. rewrite app_nil_r.
  change (str ("."%char :: bytes e)) with (String "." (str (bytes e))).
  by rewrite str_bytes.
Qed.


(** Every path is plain, or ends with a dot or a slash followed by a
    plain part. *)
Lemma last_mark s :
  Spec.plain s = true
  \/ exists p c e, s = p +:+ String c e
                 /\ (c = "."%char \/ c = "/"%char) /\ Spec.plain e = true.
Proof.
  induction s as [|c s IH]; [by left|].
  destruct IH as [Hs | (p & c' & e & -> & Hc & He)].
  - destruct (Spec.is_slash c) eqn:Hsl.
    { right. exists "", c, s. apply Ascii.eqb_eq in Hsl. auto. }
    destruct (Spec.is_dot c) eqn:Hd.
    { right. exists "", c, s. apply Ascii.eqb_eq in Hd. auto. }
    left. simpl. by rewrite Hsl, Hd, Hs.
  - right. exists (String c p), c', e. auto.
Qed.





(** *** The final segment *)







(** *** The replacements *)



(** *** Capitalization *)





(** *** The steps keep a path ASCII *)








End title.

(** ** Reconciling the content tree *)

Section reconcile.
Import GoString Database Content Run.

(** Induction on a tree, with the hypothesis for every entry of a listing *)
Lemma Entry_tree_ind (P : Entry -> Prop) :
  (forall n data, P (File n data)) ->
  (forall n dirs e, Forall P dirs -> P (Dir n dirs e)) ->
  forall d, P d.
Proof.
  intros HF HD. fix IH 1. intros [n data | n dirs e]; [apply HF|].
  apply HD. induction dirs as [|d1 rest IHrest]; constructor; [apply IH | apply IHrest].
Qed.

Lemma upsert_each_app ps qs w :
  Spec.upsert_each (ps ++ qs) w = Spec.upsert_each qs (Spec.upsert_each ps w).2.
Proof.
  revert w. induction ps as [|p ps IH]; intros w; [done|].
  simpl. rewrite !bind_run. apply IH.
Qed.

(** What the callback does at an entry that raised no error *)
Lemma visit_entry path d w :
  visit path (Some d) None w
  = (None, (Spec.upsert_each (match d with
                         | File n _ => if HasSuffix n ".md"
                                       then [Spec.slash_path path] else []
                         | Dir _ _ _ => []
                         end) w).2).
Proof.
  unfold visit. destruct d as [n data | n dirs e]; simpl; [|done].
  destruct (HasSuffix n ".md"); [|done].
  unfold Rel, ToSlash. fold (Spec.slash_path path). by mrun.
Qed.

Lemma walkDir_File fn path n data w :
  walkDir fn path (File n data) w = fn path (Some (File n data)) None w.
Proof.
  simpl. rewrite bind_run.
  destruct (fn path (Some (File n data)) None w) as [[e|] w']; simpl;
    by rewrite ?andb_false_r.
Qed.

Lemma walkDir_Dir fn path n dirs readErr w :
  walkDir fn path (Dir n dirs readErr) w
  = bind (fn path (Some (Dir n dirs readErr)) None) (fun err =>
      match err with
      | Some e => ret (if is_SkipDir e then None else Some e)
      | None =>
          bind (match readErr with
                | Some msg => fn path (Some (Dir n dirs readErr)) (Some (Errno msg))
                | None => ret None
                end) (fun err =>
            match err with
            | Some e => ret (if is_SkipDir e then None else Some e)
            | None => walk_each fn path dirs
            end)
      end) w.
Proof.
  simpl. rewrite !bind_run.
  destruct (fn path (Some (Dir n dirs readErr)) None w) as [[e|] w']; simpl.
  - by rewrite andb_true_r.
  - reflexivity.
Qed.

Lemma walk_each_cons fn path d1 rest :
  walk_each fn path (d1 :: rest)
  = bind (walkDir fn (Join path (Name d1)) d1) (fun err =>
      match err with
      | Some e => ret (if is_SkipDir e then None else Some e)
      | None => walk_each fn path rest
      end).
Proof. reflexivity. Qed.

Lemma walk_each_readable path dirs :
  Forall (fun d => forall path w,
            Spec.readable d = true ->
            walkDir visit path d w
            = (None, (Spec.upsert_each (Spec.md_files path d) w).2)) dirs ->
  forall w,
    forallb Spec.readable dirs = true ->
    walk_each visit path dirs w
    = (None, (Spec.upsert_each
                (flat_map (fun d1 => Spec.md_files (path ++ [Name d1]) d1) dirs)
                w).2).
Proof.
  induction 1 as [|d1 rest Hd1 _ IH]; intros w Hr; [done|].
  simpl in Hr. apply andb_true_iff in Hr as [Hr1 Hr].
  rewrite walk_each_cons, bind_run. unfold Join. rewrite (Hd1 _ _ Hr1). simpl.
  rewrite upsert_each_app. by apply IH.
Qed.

Lemma md_files_Dir path n dirs e :
  Spec.md_files path (Dir n dirs e)
  = flat_map (fun d1 => Spec.md_files (path ++ [Name d1]) d1) dirs.
Proof. simpl. induction dirs as [|d1 rest IH]; [done|]. simpl. by rewrite IH. Qed.

Lemma readable_Dir n dirs e :
  Spec.readable (Dir n dirs e)
  = match e with Some _ => false | None => true end
    && forallb Spec.readable dirs.
Proof. reflexivity. Qed.

Lemma walkDir_readable d :
  forall path w,
    Spec.readable d = true ->
    walkDir visit path d w
    = (None, (Spec.upsert_each (Spec.md_files path d) w).2).
Proof.
  induction d as [n data | n dirs e IH] using Entry_tree_ind; intros path w Hr.
  - by rewrite walkDir_File, visit_entry.
  - rewrite readable_Dir in Hr. destruct e as [msg|]; [done|]. simpl in Hr.
    rewrite md_files_Dir, walkDir_Dir, bind_run, visit_entry. simpl.
    rewrite bind_run. simpl. by apply walk_each_readable.
Qed.

Lemma visit_error path d e w : visit path d (Some e) w = (Some e, w).
Proof. reflexivity. Qed.

Lemma visit_Dir path n dirs e w :
  visit path (Some (Dir n dirs e)) None w = (None, w).
Proof. reflexivity. Qed.

(** A directory that cannot be listed, anywhere in the tree, stops the walk. *)
Lemma walkDir_unreadable d :
  forall path w,
    Spec.readable d = false ->
    exists msg w', walkDir visit path d w = (Some (Errno msg), w').
Proof.
  induction d as [n data | n dirs e IH] using Entry_tree_ind; intros path w Hr.
  - done.
  - rewrite readable_Dir in Hr. rewrite walkDir_Dir, bind_run, visit_Dir. simpl.
    destruct e as [msg|].
    + exists msg, w. by mrun.
    + simpl in Hr. rewrite bind_run. simpl.
      revert w. induction IH as [|d1 rest Hd1 _ IHrest]; intros w; [done|].
      simpl in Hr. rewrite walk_each_cons, bind_run.
      destruct (Spec.readable d1) eqn:Hr1.
      * rewrite (walkDir_readable d1 _ _ Hr1). simpl. by apply IHrest.
      * destruct (Hd1 (Join path (Name d1)) w eq_refl) as (msg & w' & ->).
        by exists msg, w'.
Qed.

Lemma Sync_run contentPath w :
  Sync contentPath w
  = let w1 := add_log "Starting content sync with database..." w in
    match content w with
    | inl msg =>
        (Some (Wrapf "error walking content directory" (Errno msg)), w1)
    | inr d =>
        match walkDir visit [] d w1 with
        | (Some e, w2) =>
            (if is_SkipDir e || is_SkipAll e then None
             else Some (Wrapf "error walking content directory" e),
             if is_SkipDir e || is_SkipAll e
             then add_log "Content sync finished." w2 else w2)
        | (None, w2) => (None, add_log "Content sync finished." w2)
        end
    end.
Proof.
  unfold Sync, WalkDir, Lstat. mrun.
  destruct (content w) as [msg|d]; mrun; [done|].
  destruct (walkDir visit [] d _) as [[e|] w2]; mrun; [|done].
  by destruct (is_SkipDir e || is_SkipAll e).
Qed.

(** One round of the loop over the files *)
Lemma upsert_each_cons p ps w :
  (Spec.upsert_each (p :: ps) w).2
  = (Spec.upsert_each ps (Spec.upsert_each [p] w).2).2.
Proof. by rewrite (upsert_each_app [p] ps). Qed.

Lemma upsert_one p w :
  (Spec.upsert_each [p] w).2
  = let w1 := set_faults (tail (faults w)) (add_log (found p) w) in
    match next_fault w with
    | Some msg => add_log (failed p msg) w1
    | None => set_pages (insert_or_ignore p (pathToTitle p)) w1
    end.
Proof.
  simpl. rewrite !bind_run. simpl. unfold UpsertPage. rewrite Exec_run.
  unfold log_line, modify, found, failed. simpl.
  change (next_fault (add_log _ w)) with (next_fault w).
  by destruct (next_fault w).
Qed.

Lemma grows_refl w : grows w w.
Proof. split; [done|]. intros q. by left. Qed.

Lemma grows_trans w1 w2 w3 : grows w1 w2 -> grows w2 w3 -> grows w1 w3.
Proof.
  intros [Hl12 Hp12] [Hl23 Hp23]. split; [auto|].
  intros q. destruct (Hp12 q) as [H12 | [Hn H12]], (Hp23 q) as [H23 | [Hn' H23]].
  - left. congruence.
  - right. split; congruence.
  - right. split; congruence.
  - congruence.
Qed.

Lemma grows_one p w : grows w (Spec.upsert_each [p] w).2.
Proof.
  rewrite upsert_one. simpl. destruct (next_fault w) as [msg|]; split; simpl.
  - intros l Hl. rewrite !elem_of_app. auto.
  - intros q. by left.
  - intros l Hl. rewrite elem_of_app. auto.
  - intros q. destruct (decide (q = p)) as [->|Hne].
    + rewrite insert_or_ignore_lookup.
      destruct (pages w !! p) as [r|] eqn:Hp; simpl; auto.
    + left. by apply insert_or_ignore_other.
Qed.

Lemma grows_each ps w : grows w (Spec.upsert_each ps w).2.
Proof.
  revert w. induction ps as [|p ps IH]; intros w; [apply grows_refl|].
  rewrite upsert_each_cons. eapply grows_trans; [apply grows_one | apply IH].
Qed.

Lemma upsert_each_faults ps w :
  faults (Spec.upsert_each ps w).2 = drop (length ps) (faults w).
Proof.
  revert w. induction ps as [|p ps IH]; intros w; [done|].
  rewrite upsert_each_cons, IH, upsert_one. simpl.
  destruct (next_fault w); simpl; destruct (faults w); simpl;
    by rewrite ?drop_nil.
Qed.

(** Each file is announced in the log; its row is there afterwards unless
    the driver failed on it, and then the failure is in the log: what
    happened to the files before it does not matter. *)
Lemma upsert_each_at ps : forall i p w,
  ps !! i = Some p ->
  let w' := (Spec.upsert_each ps w).2 in
  found p ∈ logs w'
  /\ match faults w !! i with
     | Some (Some msg) => failed p msg ∈ logs w'
     | _ => is_Some (pages w' !! p)
     end.
Proof.
  induction ps as [|p0 ps IH]; intros i p w Hi; [done|].
  cbv zeta. rewrite upsert_each_cons.
  pose proof (grows_each ps (Spec.upsert_each [p0] w).2) as [Hlogs Hpages].
  destruct i as [|i].
  - injection Hi as ->. rewrite upsert_one in Hlogs, Hpages |- *.
    unfold next_fault in *. simpl in *.
    destruct (faults w) as [|[msg|] fs]; simpl in *.
    + split; [apply Hlogs; rewrite elem_of_app, list_elem_of_singleton; auto|].
      destruct (Hpages p) as [-> | [_ ->]]; [|done].
      simpl. rewrite insert_or_ignore_lookup. done.
    + split; apply Hlogs; rewrite !elem_of_app, !list_elem_of_singleton; auto.
    + split; [apply Hlogs; rewrite elem_of_app, list_elem_of_singleton; auto|].
      destruct (Hpages p) as [-> | [_ ->]]; [|done].
      simpl. rewrite insert_or_ignore_lookup. done.
  - simpl in Hi. specialize (IH i p (Spec.upsert_each [p0] w).2 Hi).
    cbv zeta in IH. destruct IH as [IH1 IH2]. split; [done|].
    replace (faults (Spec.upsert_each [p0] w).2 !! i) with (faults w !! S i) in IH2;
      [done|].
    rewrite upsert_one. simpl.
    destruct (next_fault w); simpl; by destruct (faults w).
Qed.

(** Rows appear for listed files only. *)
Lemma upsert_each_only ps w q :
  pages (Spec.upsert_each ps w).2 !! q <> pages w !! q -> q ∈ ps.
Proof.
  revert w. induction ps as [|p ps IH]; intros w; [done|].
  rewrite upsert_each_cons. intros Hne.
  destruct (decide (q = p)) as [->|Hqp]; [left|]. right.
  apply (IH (Spec.upsert_each [p] w).2). intros Heq. apply Hne. rewrite Heq.
  rewrite upsert_one. simpl. destruct (next_fault w); simpl; [done|].
  by apply insert_or_ignore_other.
Qed.

(** The listing holds every markdown file that can be reached by names. *)
Lemma md_files_reach names : forall d path n data,
  Server.find_entry names d = Some (File n data) ->
  HasSuffix n ".md" = true ->
  Spec.slash_path (path ++ names) ∈ Spec.md_files path d.
Proof.
  induction names as [|x names IH]; intros d path n data Hfind Hmd.
  - simpl in Hfind. injection Hfind as ->. rewrite app_nil_r. simpl.
    rewrite Hmd. left.
  - simpl in Hfind. destruct d as [|m dirs e]; [done|].
    destruct (List.find _ dirs) as [d1|] eqn:Hd1; [|done].
    apply List.find_some in Hd1 as [Hin Hname]. apply String.eqb_eq in Hname.
    rewrite md_files_Dir. apply list_elem_of_In, in_flat_map.
    exists d1. split; [done|]. apply list_elem_of_In.
    replace (path ++ x :: names) with ((path ++ [Name d1]) ++ names)
      by (rewrite <- app_assoc; simpl; congruence).
    by eapply IH.
Qed.

(** C5: [Sync] walks the whole tree below the root.  When every directory
    can be listed it returns no error whatever the driver does; every
    entry that is not a directory and whose name ends with [.md] is
    upserted under its slash-separated path relative to the root, once, in
    the order of the walk; an upsert that fails is logged and the files
    after it are still upserted; no row is touched except the new ones.
    When the root is missing or cannot be listed the registry is left as it
    was and the error is returned, and a directory that cannot be listed
    anywhere in the tree makes [Sync] return an error. *)
Theorem Sync_reconciles (contentPath : string) (w : World) :
  let out := Sync contentPath w in
  (forall msg, content w = inl msg ->
     out.1 = Some (Wrapf "error walking content directory" (Errno msg))
     /\ pages out.2 = pages w)
  /\ (forall n dirs msg, content w = inr (Dir n dirs (Some msg)) ->
       out.1 = Some (Wrapf "error walking content directory" (Errno msg))
       /\ pages out.2 = pages w)
  /\ (forall d, content w = inr d -> Spec.readable d = false ->
       exists msg,
         out.1 = Some (Wrapf "error walking content directory" (Errno msg)))
  /\ (forall d, content w = inr d -> Spec.readable d = true ->
       let files := Spec.md_files [] d in
       out.1 = None
       /\ (forall names n data,
             Server.find_entry names d = Some (File n data) ->
             HasSuffix n ".md" = true ->
             Spec.slash_path names ∈ files)
       /\ (forall i p, files !! i = Some p ->
             found p ∈ logs out.2
             /\ match faults w !! i with
                | Some (Some msg) => failed p msg ∈ logs out.2
                | _ => is_Some (pages out.2 !! p)
                end)
       /\ grows w out.2
       /\ (forall q, pages out.2 !! q <> pages w !! q -> q ∈ files)).
Proof.
  cbv zeta. rewrite Sync_run. cbv zeta. split; [|split; [|split]].
  - intros msg ->. done.
  - intros n dirs msg ->. by mrun.
  - intros d -> Hr.
    destruct (walkDir_unreadable d [] (add_log "Starting content sync with database..." w) Hr)
      as (msg & w' & ->).
    by exists msg.
  - intros d -> Hr. rewrite (walkDir_readable d _ _ Hr).
    set (w1 := add_log "Starting content sync with database..." w).
    set (files := Spec.md_files [] d). simpl.
    split; [done|]. split; [|split; [|split]].
    + intros names n data Hfind Hmd. by apply (md_files_reach names d [] n data).
    + intros i p Hi. destruct (upsert_each_at files i p w1 Hi) as [Hf Ho].
      split; [rewrite elem_of_app; by left|].
      change (faults w1) with (faults w) in Ho.
      destruct (faults w !! i) as [[msg|]|]; [rewrite elem_of_app; by left|done..].
    + destruct (grows_each files w1) as [Hl Hp]. split.
      * intros l Hin. simpl. rewrite elem_of_app. left. apply Hl.
        subst w1. simpl. rewrite elem_of_app. by left.
      * apply Hp.
    + intros q. apply (upsert_each_only files w1 q).
Qed.

Lemma Sync_reconciles_witness :
  let w := set_content (inr sample_tree)
             (registry [("home.md", mkRow "Welcome" false 5)]
                [Some "database is locked"]) in
  let out := Sync "./content" w in
  out.1 = None
  /\ failed "blog/post.md" "database is locked" ∈ logs out.2
  /\ is_Some (pages out.2 !! "home.md").
Proof.
  intros w out.
  destruct (proj2 (proj2 (proj2 (Sync_reconciles "./content" w)))
              sample_tree eq_refl eq_refl) as (Hret & _ & Hat & _).
  split; [exact Hret|]. split.
  - exact (proj2 (Hat 0%nat "blog/post.md" eq_refl)).
  - exact (proj2 (Hat 1%nat "home.md" eq_refl)).
Defined.

End reconcile.

(** ** Signatures *)

Section signatures.
Import Crypto Run.
Local Open Scope Z_scope.

Lemma bytes_of_range s : is_bytes (bytes_of s).
Proof.
  unfold is_bytes, bytes_of. apply Forall_fmap, Forall_forall. intros c _. simpl.
  unfold byte_of. pose proof (nat_ascii_bounded c). lia.
Qed.

Lemma byte_of_inj c1 c2 : byte_of c1 = byte_of c2 -> c1 = c2.
Proof.
  unfold byte_of. intros H. apply Nat2Z.inj in H.
  rewrite <- (ascii_nat_embedding c1), <- (ascii_nat_embedding c2). by rewrite H.
Qed.

Lemma bytes_of_inj s1 s2 : bytes_of s1 = bytes_of s2 -> s1 = s2.
Proof.
  unfold bytes_of. intros H. apply bytes_inj.
  revert H. unfold GoString.bytes.
  generalize (list_ascii_of_string s1) (list_ascii_of_string s2).
  induction l as [|c l IH]; intros [|c' l'] H; try done.
  simpl in H. injection H as Hc Hl. f_equal; [by apply byte_of_inj | by apply IH].
Qed.

(** *** Test vectors: FIPS 180-4 (one block, two blocks), RFC 4231 (test
    cases 2 and 6) and the example of GitHub's documentation of webhook
    signatures *)

Example sha256_abc :
  EncodeToString (sha256 (bytes_of "abc"))
  = "ba7816bf8f01cfea414140de5dae2223b00361a396177a9cb410ff61f20015ad".
Proof. vm_compute. reflexivity. Qed.

Example sha256_two_blocks :
  EncodeToString
    (sha256 (bytes_of "abcdbcdecdefdefgefghfghighijhijkijkljklmklmnlmnomnopnopq"))
  = "248d6a61d20638b8e5c026930c3e6039a33ce45964ff2167f6ecedd419db06c1".
Proof. vm_compute. reflexivity. Qed.

Example hmac_sha256_rfc4231 :
  EncodeToString (hmac_sha256 (bytes_of "Jefe")
                    (bytes_of "what do ya want for nothing?"))
  = "5bdcc146bf60754e6a042426089575c75a003f089d2739839dec58b964ec3843".
Proof. vm_compute. reflexivity. Qed.

Example hmac_sha256_long_key :
  EncodeToString
    (hmac_sha256 (replicate 131 170%Z)
       (bytes_of "Test Using Larger Than Block-Size Key - Hash Key First"))
  = "60e431591ee0b67f0d8a26aacbf5b77f8e0bc6213728c5140546040f0ee37f54".
Proof. vm_compute. reflexivity. Qed.

Example sign_documented :
  sign "It's a Secret to Everybody" "Hello, World!"
  = "sha256=757107ea0eb2509fc211221cce984b8a37570b6d7586c22c46f4379c8b043e17".
Proof. vm_compute. reflexivity. Qed.

(** *** Constant-time comparison *)

Lemma lor_byte a b : 0 <= a < 256 -> 0 <= b < 256 -> 0 <= Z.lor a b < 256.
Proof.
  intros Ha Hb. split; [apply Z.lor_nonneg; lia|].
  destruct (Z.eq_dec (Z.lor a b) 0) as [->|Hne]; [lia|].
  assert (0 < Z.lor a b) by (pose proof (proj2 (Z.lor_nonneg a b)); lia).
  change 256 with (2 ^ 8). apply Z.log2_lt_pow2; [done|].
  rewrite Z.log2_lor by lia.
  destruct (Z.eq_dec a 0) as [->|]; destruct (Z.eq_dec b 0) as [->|].
  - simpl. lia.
  - rewrite Z.max_r by (simpl; apply Z.log2_nonneg).
    apply Z.log2_lt_pow2; lia.
  - rewrite Z.max_l by (simpl; apply Z.log2_nonneg).
    apply Z.log2_lt_pow2; lia.
  - apply Z.max_lub_lt; apply Z.log2_lt_pow2; lia.
Qed.

Lemma lxor_byte a b : 0 <= a < 256 -> 0 <= b < 256 -> 0 <= Z.lxor a b < 256.
Proof.
  intros Ha Hb. split; [apply Z.lxor_nonneg; lia|].
  destruct (Z.eq_dec (Z.lxor a b) 0) as [->|Hne]; [lia|].
  assert (0 < Z.lxor a b) by (pose proof (proj2 (Z.lxor_nonneg a b)); lia).
  change 256 with (2 ^ 8). apply Z.log2_lt_pow2; [done|].
  eapply Z.le_lt_trans; [apply Z.log2_lxor; lia|].
  destruct (Z.eq_dec a 0) as [->|]; destruct (Z.eq_dec b 0) as [->|].
  - simpl. lia.
  - rewrite Z.max_r by (simpl; apply Z.log2_nonneg).
    apply Z.log2_lt_pow2; lia.
  - rewrite Z.max_l by (simpl; apply Z.log2_nonneg).
    apply Z.log2_lt_pow2; lia.
  - apply Z.max_lub_lt; apply Z.log2_lt_pow2; lia.
Qed.

Lemma ConstantTimeByteEq_zero v :
  0 <= v < 256 -> ConstantTimeByteEq v 0 = if v =? 0 then 1 else 0.
Proof.
  intros Hv. unfold ConstantTimeByteEq, w32. rewrite Z.lxor_0_r.
  rewrite Z.shiftr_div_pow2 by lia.
  destruct (v =? 0) eqn:E.
  - apply Z.eqb_eq in E. subst v. reflexivity.
  - apply Z.eqb_neq in E. rewrite Z.mod_small by lia.
    apply Z.div_small. lia.
Qed.

Lemma differences_zero x : forall y acc,
  is_bytes x -> is_bytes y -> 0 <= acc < 256 -> length x = length y ->
  let v := foldl (fun v xy => Z.lor v (Z.lxor xy.1 xy.2)) acc (zip x y) in
  0 <= v < 256 /\ (v = 0 <-> acc = 0 /\ x = y).
Proof.
  induction x as [|a x IH]; intros [|b y] acc Hx Hy Hacc Hlen; try done.
  - simpl. split; [done|]. tauto.
  - apply Forall_cons in Hx as [Ha Hx]. apply Forall_cons in Hy as [Hb Hy].
    simpl in Hlen. injection Hlen as Hlen. simpl.
    pose proof (lxor_byte a b Ha Hb) as Hab.
    pose proof (lor_byte acc _ Hacc Hab) as Hacc'.
    destruct (IH y _ Hx Hy Hacc' Hlen) as [Hv Hiff]. split; [done|].
    rewrite Hiff, Z.lor_eq_0_iff, Z.lxor_eq_0_iff. split.
    + intros [[-> ->] ->]. done.
    + intros [-> [= -> ->]]. done.
Qed.

(** [hmac.Equal] decides equality of byte strings. *)
Lemma Equal_iff x y : is_bytes x -> is_bytes y -> Equal x y = true <-> x = y.
Proof.
  intros Hx Hy. unfold Equal, ConstantTimeCompare.
  destruct (Nat.eqb (length x) (length y)) eqn:Hlen; cbn [negb].
  - apply Nat.eqb_eq in Hlen.
    destruct (differences_zero x y 0 Hx Hy ltac:(lia) Hlen) as [Hv Hiff].
    cbv zeta in Hv, Hiff. rewrite ConstantTimeByteEq_zero by done.
    destruct (foldl _ 0 (zip x y) =? 0) eqn:E.
    + apply Z.eqb_eq in E. split; [intros _; by apply Hiff|done].
    + apply Z.eqb_neq in E. split; [done|]. intros ->. exfalso. apply E, Hiff. done.
  - apply Nat.eqb_neq in Hlen. split; [done|]. intros ->. done.
Qed.

Lemma Equal_strings s1 s2 :
  Equal (bytes_of s1) (bytes_of s2) = true <-> s1 = s2.
Proof.
  rewrite Equal_iff by apply bytes_of_range. split; [apply bytes_of_inj|by intros ->].
Qed.

End signatures.

(** ** Hexadecimal encoding and the digest *)

Section hex.
Import Crypto Run.
Local Open Scope Z_scope.




Lemma EncodeToString_length x :
  String.length (EncodeToString x) = (2 * length x)%nat.
Proof. induction x as [|a x IH]; simpl; [done|]. rewrite IH. lia. Qed.



Lemma compress_length h block : length h = 8%nat -> length (compress h block) = 8%nat.
Proof. intros Hh. unfold compress. rewrite length_zip_with. simpl. lia. Qed.


Lemma sha256_length msg : length (sha256 msg) = 32%nat.
Proof.
  unfold sha256.
  assert (Hh : forall blocks h, length h = 8%nat ->
                 length (foldl compress h blocks) = 8%nat).
  { induction blocks as [|b bs IH]; intros h Hh; [done|].
    simpl. apply IH. by apply compress_length. }
  specialize (Hh (chunks (length (pad msg)) 64 (pad msg)) H0 eq_refl).
  destruct (foldl compress H0 _) as [|a [|b [|c [|d [|e [|f [|g [|i [|j l]]]]]]]]];
    try done.
Qed.


Lemma sign_length secret body : String.length (sign secret body) = 71%nat.
Proof.
  unfold sign. change (String.length ("sha256=" +:+ ?s)) with (7 + String.length s)%nat.
  rewrite EncodeToString_length. unfold hmac_sha256. by rewrite sha256_length.
Qed.


End hex.

(** ** The webhook handler *)

Section webhook.
Import Crypto Run Server.
Local Open Scope Z_scope.

Variable json_Unmarshal : string -> option (gmap string JSON).

(** What the handler does once the signature has been checked *)
Lemma handleWebhook_signed s r w body :
  Body r = inl body ->
  Get (Header r) "X-Hub-Signature-256" = sign (GithubWebhookSecret (cfg s)) body ->
  handleWebhook json_Unmarshal s r w
  = match json_Unmarshal body with
    | None => (http_Error "Invalid payload" StatusBadRequest, w)
    | Some payload =>
        match payload !! "ref" with
        | Some (JString ref) =>
            if String.eqb ref "refs/heads/main" || String.eqb ref "refs/heads/master"
            then (mkResponse StatusAccepted [] "Webhook accepted. Processing update.",
                  add_goroutine GoPullAndSync
                    (add_log "Webhook validated. Triggering content update..." w))
            else (mkResponse StatusOK []
                    "Payload received, but not for main/master branch. Ignoring.", w)
        | _ => (mkResponse StatusOK []
                  "Payload received, but not for main/master branch. Ignoring.", w)
        end
    end.
Proof.
  intros Hbody Hsig. unfold handleWebhook. rewrite Hsig, Hbody.
  assert (String.eqb (sign (GithubWebhookSecret (cfg s)) body) "" = false) as ->.
  { apply String.eqb_neq. intros H. pose proof (sign_length (GithubWebhookSecret (cfg s)) body) as Hl.
    rewrite H in Hl. discriminate. }
  fold (sign (GithubWebhookSecret (cfg s)) body).
  rewrite (proj2 (Equal_strings _ _) eq_refl). cbn [negb].
  destruct (json_Unmarshal body) as [payload|]; [|done].
  destruct (payload !! "ref") as [[| | |ref| |]|]; try done.
  cbn [negb orb]. 
  destruct (String.eqb ref "refs/heads/main"); [done|].
  destruct (String.eqb ref "refs/heads/master"); done.
Qed.

(** The goroutine of an accepted delivery: when the pull fails nothing is
    reconciled; when it succeeds the pulled tree is reconciled. *)
Lemma pull_and_sync_failed s w output status rest :
  remote w = PullFailed output status :: rest ->
  (pull_and_sync s w).2
  = add_log ("ERROR: Failed to pull repo: git pull failed: " +:+ output
             +:+ Content.newline +:+ status)
      (set_remote rest (add_log "Pulling latest changes from repository..." w)).
Proof.
  intros Hr. unfold pull_and_sync, Content.PullRepo. mrun. rewrite Hr. by mrun.
Qed.

Lemma pull_and_sync_pulled s w tree rest :
  remote w = PullOk tree :: rest ->
  (pull_and_sync s w).2
  = let w1 := add_log "Content repository pulled successfully."
                (set_content tree
                   (set_remote rest
                      (add_log "Pulling latest changes from repository..." w))) in
    let r := Content.Sync (ContentPath (cfg s)) w1 in
    add_log (match r.1 with
             | Some e => "ERROR: Failed to sync content after pull: "
                         +:+ error_string e
             | None => "Content sync complete."
             end) r.2.
Proof.
  intros Hr. unfold pull_and_sync, Content.PullRepo. rewrite !bind_run. simpl.
  rewrite Hr. rewrite !bind_run. simpl. rewrite !bind_run. simpl.
  by destruct (Content.Sync _ _) as [[e|] w2].
Qed.

End webhook.

Section webhook_claims.
Import Crypto Run Server.
Local Open Scope Z_scope.



(** C2: behind a valid signature, a body that does not decode is answered
    400; one that decodes without a string [ref], or with a [ref] other
    than the two tracked branch references, is answered 200 and nothing is
    scheduled; one whose [ref] is a tracked branch reference starts the
    pull-then-reconcile goroutine and is answered 202 at once: neither the
    repository nor the working copy nor the registry has been touched
    when the response is returned, and the response is the same in every
    world.  Once it runs, the goroutine pulls and, if the pull succeeded,
    reconciles the pulled tree; a failed pull leaves registry and working
    copy alone. *)
Theorem handleWebhook_dispatch
    (json_Unmarshal : string -> option (gmap string JSON))
    (s : Server) (r : Request) (w : World) (body : string)
    (Hbody : Body r = inl body)
    (Hsig : Get (Header r) "X-Hub-Signature-256"
            = sign (GithubWebhookSecret (cfg s)) body) :
  let out := handleWebhook json_Unmarshal s r w in
  let ignored :=
    mkResponse StatusOK []
      "Payload received, but not for main/master branch. Ignoring." in
  (json_Unmarshal body = None ->
     out = (http_Error "Invalid payload" StatusBadRequest, w))
  /\ (forall payload, json_Unmarshal body = Some payload ->
        ((forall ref, payload !! "ref" <> Some (JString ref)) ->
           out = (ignored, w))
        /\ (forall ref, payload !! "ref" = Some (JString ref) ->
              ref <> "refs/heads/main" -> ref <> "refs/heads/master" ->
              out = (ignored, w))
        /\ (forall ref, payload !! "ref" = Some (JString ref) ->
              ref = "refs/heads/main" \/ ref = "refs/heads/master" ->
              out.1 = mkResponse StatusAccepted []
                        "Webhook accepted. Processing update."
              /\ goroutines out.2 = goroutines w ++ [GoPullAndSync]
              /\ pages out.2 = pages w /\ faults out.2 = faults w
              /\ content out.2 = content w /\ remote out.2 = remote w))
  /\ (forall w2, (handleWebhook json_Unmarshal s r w2).1 = out.1)
  /\ (forall w0 output status rest,
        remote w0 = PullFailed output status :: rest ->
        pages (run_goroutine s GoPullAndSync w0).2 = pages w0
        /\ content (run_goroutine s GoPullAndSync w0).2 = content w0)
  /\ (forall w0 tree rest,
        remote w0 = PullOk tree :: rest ->
        let w1 := add_log "Content repository pulled successfully."
                    (set_content tree
                       (set_remote rest
                          (add_log "Pulling latest changes from repository..." w0))) in
        let r := Content.Sync (ContentPath (cfg s)) w1 in
        (run_goroutine s GoPullAndSync w0).2
        = add_log (match r.1 with
                   | Some e => "ERROR: Failed to sync content after pull: "
                               +:+ error_string e
                   | None => "Content sync complete."
                   end) r.2).
Proof.
  cbv zeta. rewrite (handleWebhook_signed json_Unmarshal s r w body Hbody Hsig).
  split; [|split; [|split; [|split]]].
  - by intros ->.
  - intros payload ->. split; [|split].
    + intros Hno. destruct (payload !! "ref") as [[| | |ref| |]|]; try done.
      by destruct (Hno ref).
    + intros ref -> Hmain Hmaster.
      apply String.eqb_neq in Hmain, Hmaster. by rewrite Hmain, Hmaster.
    + intros ref -> [-> | ->]; simpl; done.
  - intros w2. rewrite (handleWebhook_signed json_Unmarshal s r w2 body Hbody Hsig).
    destruct (json_Unmarshal body) as [payload|]; [|done].
    destruct (payload !! "ref") as [[| | |ref| |]|]; try done.
    by destruct (_ || _).
  - intros w0 output status rest Hr. simpl.
    by rewrite (pull_and_sync_failed s w0 output status rest Hr).
  - intros w0 tree rest Hr. apply (pull_and_sync_pulled s w0 tree rest Hr).
Qed.

Lemma handleWebhook_dispatch_witness :
  let s := server "s3cret" in
  let push := push_event "refs/heads/main" in
  let other := push_event "refs/heads/develop" in
  (let out := handleWebhook decode s (delivery (sign "s3cret" push) push) fresh in
   StatusCode out.1 = StatusAccepted /\ goroutines out.2 = [GoPullAndSync])
  /\ handleWebhook decode s (delivery (sign "s3cret" other) other) fresh
     = (mkResponse StatusOK []
          "Payload received, but not for main/master branch. Ignoring.", fresh).
Proof.
  intros s push other. split.
  - pose proof (handleWebhook_dispatch decode s
                  (delivery (sign "s3cret" push) push) fresh push
                  eq_refl eq_refl) as (_ & H & _).
    specialize (H (default ∅ (decode push)) ltac:(vm_compute; reflexivity)).
    destruct H as (_ & _ & H).
    destruct (H "refs/heads/main" ltac:(vm_compute; reflexivity)
                (or_introl eq_refl)) as (Hresp & Hgo & _).
    cbv zeta. rewrite Hresp. split; [reflexivity | exact Hgo].
  - pose proof (handleWebhook_dispatch decode s
                  (delivery (sign "s3cret" other) other) fresh other
                  eq_refl eq_refl) as (_ & H & _).
    specialize (H (default ∅ (decode other)) ltac:(vm_compute; reflexivity)).
    destruct H as (_ & H & _).
    apply (H "refs/heads/develop"); [vm_compute; reflexivity | discriminate..].
Defined.

End webhook_claims.

(** ** The administration toggle and the public page handler *)

Section pages_claims.
Import GoString Database Run Server.
Local Open Scope Z_scope.

(** What the handler does with a non-empty wildcard parameter *)
Lemma handleAdminToggleVisibility_wildcard s r w :
  URLParam r "*" <> "" ->
  handleAdminToggleVisibility s r w
  = let pagePath := URLParam r "*" in
    let pagePath := if HasSuffix pagePath ".md" then pagePath
                    else pagePath +:+ ".md" in
    match ToggleVisibility pagePath w with
    | (Some _, w') =>
        (http_Error "Failed to toggle visibility" StatusInternalServerError, w')
    | (None, w') =>
        (mkResponse StatusOK [("HX-Redirect", "/admin/dashboard")] "", w')
    end.
Proof.
  intros Hne. unfold handleAdminToggleVisibility.
  apply String.eqb_neq in Hne. rewrite Hne. cbv zeta. rewrite bind_run.
  destruct (HasSuffix (URLParam r "*") ".md"); cbn [negb];
    by destruct (ToggleVisibility _ w) as [[e|] w'].
Qed.

(** C8, as the code has it: the route declares the parameter [pagePath]
    while the handler reads the wildcard [*], which is empty on this
    route; whatever page the request names, the handler answers 400 and
    the registry is not consulted. *)
Theorem handleAdminToggleVisibility_route (s : Server) (segment : string)
    (hdr : gmap string (list string)) (body : string + string) (w : World) :
  let r := mkRequest hdr body (toggle_route_params segment) in
  URLParam r "pagePath" = segment
  /\ URLParam r "*" = ""
  /\ handleAdminToggleVisibility s r w
     = (http_Error "Page path is required" StatusBadRequest, w).
Proof. done. Qed.

(** C10: a page whose row is hidden gets the answer of a page without a
    row, 404 [Page not found], and by then no file has been opened, no
    goroutine started and no row changed. *)
Theorem renderPage_hidden
    (md_Convert : string -> string + string)
    (ExecuteTemplate : string -> gmap string TmplValue -> string * option string)
    (s : Server) (r : Request) (pagePath : string) (w : World) (row : Row)
    (Hrow : pages w !! pagePath = Some row)
    (Hhidden : is_visible row = false) :
  let out := renderPage md_Convert ExecuteTemplate s r pagePath w in
  out.1 = http_Error "Page not found" StatusNotFound
  /\ (forall r0 absent w0,
        pages w0 !! absent = None ->
        (renderPage md_Convert ExecuteTemplate s r0 absent w0).1 = out.1)
  /\ opened out.2 = opened w
  /\ goroutines out.2 = goroutines w
  /\ pages out.2 = pages w
  /\ logs out.2 = logs w
  /\ content out.2 = content w.
Proof.
  cbv zeta.
  assert (Hrun : forall r0 p w0,
    (forall row, pages w0 !! p = Some row -> is_visible row = false) ->
    renderPage md_Convert ExecuteTemplate s r0 p w0
    = (http_Error "Page not found" StatusNotFound,
       set_faults (tail (faults w0)) w0)).
  { intros r0 p w0 Hp. unfold renderPage, GetPageByPath.
    rewrite !bind_run, Query_run. simpl.
    destruct (next_fault w0); [done|].
    destruct (pages w0 !! p) as [row0|] eqn:E; [|done].
    simpl. by rewrite (Hp row0 eq_refl). }
  rewrite Hrun by (intros row0; rewrite Hrow; by intros [= <-]).
  repeat split; try done.
  intros r0 absent w0 Habs. rewrite Hrun; [done|].
  intros row0. by rewrite Habs.
Qed.

Lemma renderPage_hidden_witness :
  let w := set_content (inr sample_tree)
             (registry [("home.md", mkRow "Home" false 4)] []) in
  let silent : string -> gmap string TmplValue -> string * option string :=
    fun _ _ => ("", None) in
  (renderPage inl silent (server "s3cret") (mkRequest ∅ (inl "") []) "home.md" w).1
  = http_Error "Page not found" StatusNotFound.
Proof.
  intros w silent.
  exact (proj1 (renderPage_hidden inl silent (server "s3cret")
                  (mkRequest ∅ (inl "") []) "home.md" w
                  (mkRow "Home" false 4) eq_refl eq_refl)).
Defined.

(** By contrast, a visible page has its file opened and its visit counted. *)
Example renderPage_visible :
  let w := set_content (inr sample_tree)
             (registry [("home.md", mkRow "Home" true 4)] []) in
  let silent : string -> gmap string TmplValue -> string * option string :=
    fun _ _ => ("<html/>", None) in
  let out := renderPage inl silent (server "s3cret") (mkRequest ∅ (inl "") [])
               "home.md" w in
  StatusCode out.1 = StatusOK
  /\ opened out.2 = ["home.md"]
  /\ goroutines out.2 = [GoIncrementVisitCount "home.md"].
Proof. vm_compute. done. Qed.

End pages_claims.

(** ** Goroutines of concurrent deliveries *)

Section scheduler.
Import Scheduler.

Variable s : Server.












Lemma reachable_accept w p : reachable s w p -> reachable s w (accept p).
Proof. intros Hp. eapply rtc_r; [exact Hp | apply step_accept]. Qed.

Lemma reachable_run w p i ph :
  phases p !! i = Some ph -> is_Finished ph = false ->
  reachable s w p -> reachable s w (run s i p).
Proof. intros Hi Hph Hp. eapply rtc_r; [exact Hp | by eapply step_run]. Qed.





Lemma overlap_reachable w : reachable s w (overlap s w).
Proof.
  unfold overlap.
  assert (H2 : reachable s w (accept (accept (start w)))).
  { do 2 apply reachable_accept. apply rtc_refl. }
  assert (H3 : reachable s w (run s 0 (accept (accept (start w))))).
  { by apply (reachable_run w _ 0%nat Started). }
  assert (H4 : reachable s w (run s 0 (run s 0 (accept (accept (start w)))))).
  { by apply (reachable_run w _ 0%nat Pulling). }
  apply (reachable_run w _ 1%nat Started); [|done|exact H4].
  unfold run, accept, start. simpl. unfold bind, get. simpl.
  by destruct (remote w) as [|[output status | tree] rest].
Qed.


End scheduler.

Section scheduler_runs.
Import Scheduler Run.



(** The first goroutine pulls a tree with [home.md]; before it reconciles,
    the second one pulls a tree without it: the first reconciliation walks
    the second tree.  Run on its own, the first goroutine records
    [home.md]. *)
Example reconcile_overtaken :
  let s := server "s3cret" in
  let w := set_remote [PullOk (inr sample_tree); PullOk (inr later_tree)] fresh in
  let p := overtaken s w in
  reachable s w p
  /\ phases p = [Finished; Reconciling]
  /\ pages (world p) !! "home.md" = None
  /\ pages (world p) !! "about.md" = Some (mkRow "About" true 0)
  /\ pages (run_alone s w).2 !! "home.md" = Some (mkRow "Home" true 0).
Proof.
  intros s w p. split.
  - subst p. unfold overtaken.
    apply (reachable_run s w _ 0%nat Reconciling); [vm_compute; reflexivity | done|].
    apply (reachable_run s w _ 1%nat Pulling); [vm_compute; reflexivity | done|].
    apply overlap_reachable.
  - vm_compute. done.
Qed.

End scheduler_runs.

(** ** More of the registry: listings, look-ups and visit counts *)

Section registry_more.
Import Database Run.

#[local] Existing Instance path_le_trans.
#[local] Existing Instance path_le_total.

Lemma healthy_next n w : healthy (S n) w = true -> next_fault w = None.
Proof.
  unfold healthy, next_fault. by destruct (faults w) as [|[msg|] fs].
Qed.

Lemma healthy_tail n w w' :
  healthy (S n) w = true -> faults w' = tail (faults w) -> healthy n w' = true.
Proof.
  unfold healthy. intros H ->.
  destruct (faults w) as [|[msg|] fs]; simpl in *; try done.
  by rewrite take_nil.
Qed.

(** Two sorted listings of the same rows are the same listing: a path is
    the key of one row. *)
Lemma sorted_by_path_unique (l1 : list (string * Row)) : forall l2,
  StronglySorted path_le l1 -> StronglySorted path_le l2 ->
  NoDup l1.*1 -> l1 ≡ₚ l2 -> l1 = l2.
Proof.
  induction l1 as [|a l1 IH]; intros l2 H1 H2 Hnd Hp.
  - by apply Permutation_nil_l in Hp.
  - destruct l2 as [|b l2]; [by apply Permutation_nil_r in Hp|].
    apply StronglySorted_inv in H1 as [H1 Ha].
    apply StronglySorted_inv in H2 as [H2 Hb].
    simpl in Hnd. apply NoDup_cons in Hnd as [Hnotin Hnd].
    assert (a = b) as <-.
    { assert (Hain : a ∈ b :: l2) by (rewrite <- Hp; left).
      assert (Hbin : b ∈ a :: l1) by (rewrite Hp; left).
      apply elem_of_cons in Hain as [|Hain]; [done|].
      apply elem_of_cons in Hbin as [|Hbin]; [done|].
      exfalso. rewrite Forall_forall in Ha, Hb.
      assert (a.1 = b.1) as Heq.
      { apply (anti_symm String.le); [by apply Ha | by apply Hb]. }
      apply Hnotin. rewrite Heq. apply list_elem_of_fmap. by exists b. }
    f_equal. apply IH; try done. by apply Permutation_cons_inv in Hp.
Qed.


Lemma order_by_path_keys l : NoDup l.*1 -> NoDup (order_by_path l).*1.
Proof. intros H. by rewrite order_by_path_perm. Qed.

Lemma sorted_filter (P : string * Row -> Prop) `{!forall x, Decision (P x)} l :
  StronglySorted path_le l -> StronglySorted path_le (filter P l).
Proof.
  induction 1 as [|a l Hs IH Hall]; [constructor|].
  rewrite filter_cons. destruct (decide (P a)); [|done].
  constructor; [done|]. rewrite Forall_forall in Hall |- *.
  intros b Hb. apply list_elem_of_filter in Hb as [_ Hb]. by apply Hall.
Qed.

(** Selecting rows and ordering them can be done in either order. *)
Lemma order_by_path_filter (P : string * Row -> Prop)
    `{!forall x, Decision (P x)} l :
  NoDup l.*1 -> order_by_path (filter P l) = filter P (order_by_path l).
Proof.
  intros Hnd. apply sorted_by_path_unique.
  - apply order_by_path_sorted.
  - apply sorted_filter, order_by_path_sorted.
  - apply order_by_path_keys. eapply sublist_NoDup; [exact Hnd|].
    apply fmap_sublist, sublist_filter.
  - by rewrite !order_by_path_perm.
Qed.

Lemma GetAllPages_run w :
  GetAllPages w
  = (match next_fault w with
     | Some msg => inr (Errno msg)
     | None => inl (page_of <$> order_by_path (map_to_list (pages w)))
     end, set_faults (tail (faults w)) w).
Proof. unfold GetAllPages. by rewrite Query_run. Qed.


(** The navigation is the visible part of the full listing. *)
Lemma visible_of_all t :
  scan_nav <$> select_visible t
  = nav_entry <$> filter (fun pg => IsVisible pg = true)
                    (page_of <$> order_by_path (map_to_list t)).
Proof.
  unfold select_visible.
  rewrite order_by_path_filter by apply NoDup_fst_map_to_list.
  generalize (order_by_path (map_to_list t)). intros l.
  induction l as [|[k r] l IH]; [done|].
  rewrite fmap_cons, !filter_cons. cbn [page_of IsVisible fst snd].
  destruct (decide (is_visible r = true)).
  - rewrite !fmap_cons. by rewrite IH.
  - by rewrite IH.
Qed.

Lemma GetPageByPath_run path w :
  GetPageByPath path w
  = (match next_fault w with
     | Some msg => inr (Errno msg)
     | None =>
         match pages w !! path with
         | Some row =>
             inl (mkPage path (title row) (is_visible row) (visit_count row))
         | None => inr ErrNoRows
         end
     end, set_faults (tail (faults w)) w).
Proof.
  unfold GetPageByPath. rewrite bind_run, Query_run. simpl.
  destruct (next_fault w); [done|]. by destruct (pages w !! path).
Qed.

Lemma UpsertPage_run path w :
  UpsertPage path w
  = match next_fault w with
    | Some msg => (Some (Errno msg), set_faults (tail (faults w)) w)
    | None => (None, set_pages (insert_or_ignore path (pathToTitle path))
                       (set_faults (tail (faults w)) w))
    end.
Proof. unfold UpsertPage. by rewrite Exec_run. Qed.

Lemma ToggleVisibility_run path w :
  ToggleVisibility path w
  = match next_fault w with
    | Some msg => (Some (Errno msg), set_faults (tail (faults w)) w)
    | None => (None, set_pages (alter flip_visible path)
                       (set_faults (tail (faults w)) w))
    end.
Proof. unfold ToggleVisibility. by rewrite Exec_run. Qed.

Lemma IncrementVisitCount_run path w :
  (IncrementVisitCount path w).2
  = match next_fault w with
    | Some msg => add_log (lost_visit path msg) (set_faults (tail (faults w)) w)
    | None => set_pages (alter bump path) (set_faults (tail (faults w)) w)
    end.
Proof.
  unfold IncrementVisitCount. rewrite bind_run, Exec_run.
  by destruct (next_fault w).
Qed.




(** X2: [GetVisiblePages], run after [GetAllPages] on the same table,
    returns the pages of the full listing that are visible, in the same
    order, each reduced to its display path and its title. *)
Theorem GetVisiblePages_of_GetAllPages (w : World) (Hrun : healthy 2 w = true) :
  exists all,
    (GetAllPages w).1 = inl all
    /\ (GetVisiblePages (GetAllPages w).2).1
       = inl (nav_entry <$> filter (fun pg => IsVisible pg = true) all).
Proof.
  exists (page_of <$> order_by_path (map_to_list (pages w))).
  rewrite GetAllPages_run, (healthy_next 1 w Hrun). split; [done|]. simpl.
  unfold GetVisiblePages. rewrite Query_run.
  rewrite (healthy_next 0 (set_faults (tail (faults w)) w)
             (healthy_tail 1 w (set_faults (tail (faults w)) w) Hrun eq_refl)).
  simpl. f_equal. apply visible_of_all.
Qed.

Lemma GetVisiblePages_of_GetAllPages_witness :
  let w := registry [("home.md", mkRow "Home" true 4);
                     ("draft.md", mkRow "Draft" false 0)] [] in
  exists all,
    (GetAllPages w).1 = inl all
    /\ (GetVisiblePages (GetAllPages w).2).1
       = inl (nav_entry <$> filter (fun pg => IsVisible pg = true) all).
Proof.
  intros w. apply (GetVisiblePages_of_GetAllPages w). reflexivity.
Defined.

(** X3: a look-up after an upsert finds the page.  With the driver
    running both statements, [GetPageByPath] on a path without a row
    returns [sql.ErrNoRows]; after [UpsertPage] on that path it returns the
    page with the title derived from the path, visible, never visited; on
    a path that had a row it returns that row unchanged; the look-up of any
    other path is not affected. *)
Theorem GetPageByPath_after_UpsertPage (path : string) (w : World)
    (Hrun : healthy 2 w = true) :
  (pages w !! path = None -> (GetPageByPath path w).1 = inr ErrNoRows)
  /\ (GetPageByPath path (UpsertPage path w).2).1
     = inl (match pages w !! path with
            | Some row =>
                mkPage path (title row) (is_visible row) (visit_count row)
            | None => mkPage path (pathToTitle path) true 0
            end)
  /\ (forall q, q <> path ->
        (GetPageByPath q (UpsertPage path w).2).1 = (GetPageByPath q w).1).
Proof.
  pose proof (healthy_next 1 w Hrun) as H0.
  pose proof (healthy_next 0 _ (healthy_tail 1 w (set_faults (tail (faults w)) w)
                                  Hrun eq_refl)) as H1.
  rewrite UpsertPage_run, H0. simpl.
  split; [|split].
  - intros Hnone. by rewrite GetPageByPath_run, H0, Hnone.
  - rewrite GetPageByPath_run.
    change (next_fault (set_pages ?f ?x)) with (next_fault x). rewrite H1. simpl.
    rewrite insert_or_ignore_lookup. by destruct (pages w !! path).
  - intros q Hq. rewrite !GetPageByPath_run.
    change (next_fault (set_pages ?f ?x)) with (next_fault x). rewrite H0, H1. simpl.
    by rewrite insert_or_ignore_other.
Qed.

Lemma GetPageByPath_after_UpsertPage_witness :
  let w := registry [("about.md", mkRow "About us" false 7)] [] in
  (GetPageByPath "blog/first-post.md" w).1 = inr ErrNoRows
  /\ (GetPageByPath "blog/first-post.md" (UpsertPage "blog/first-post.md" w).2).1
     = inl (mkPage "blog/first-post.md" "First Post" true 0)
  /\ (GetPageByPath "about.md" (UpsertPage "about.md" w).2).1
     = inl (mkPage "about.md" "About us" false 7).
Proof.
  intros w.
  pose proof (GetPageByPath_after_UpsertPage "blog/first-post.md" w eq_refl)
    as (Hmiss & Hhit & _).
  pose proof (GetPageByPath_after_UpsertPage "about.md" w eq_refl)
    as (_ & Hold & _).
  split; [exact (Hmiss eq_refl)|]. split; [exact Hhit | exact Hold].
Defined.



(** X5: counting a visit and toggling the visibility commute.  With the
    driver running both statements, the table is the same whichever of
    [IncrementVisitCount] and [ToggleVisibility] runs first, on the same
    path or on two: the count is one more, the visibility is negated when
    the paths agree, and neither logs anything. *)
Theorem IncrementVisitCount_ToggleVisibility_commute
    (p q : string) (w : World) (Hrun : healthy 2 w = true) :
  let counted_first := (ToggleVisibility q (IncrementVisitCount p w).2).2 in
  let toggled_first := (IncrementVisitCount p (ToggleVisibility q w).2).2 in
  pages counted_first = pages toggled_first
  /\ (forall r, pages w !! p = Some r ->
        pages counted_first !! p
        = Some (mkRow (title r)
                  (if decide (p = q) then negb (is_visible r) else is_visible r)
                  (visit_count r + 1)))
  /\ logs counted_first = logs w /\ logs toggled_first = logs w.
Proof.
  cbv zeta. pose proof (healthy_next 1 w Hrun) as H0.
  pose proof (healthy_next 0 _ (healthy_tail 1 w (set_faults (tail (faults w)) w)
                                  Hrun eq_refl)) as H1.
  rewrite !IncrementVisitCount_run, !ToggleVisibility_run.
  rewrite H0. simpl.
  change (next_fault (set_pages ?f ?x)) with (next_fault x).
  rewrite H1. simpl. split; [|split; [|done]].
  - rewrite (alter_alter flip_visible bump). case_decide; [|done]. subst q.
    rewrite alter_alter_eq. apply alter_ext. by intros [t v c] _.
  - intros r Hr. rewrite lookup_alter. case_decide.
    + subst q. rewrite decide_True by done. by rewrite lookup_alter_eq, Hr.
    + rewrite decide_False by done. by rewrite lookup_alter_eq, Hr.
Qed.

Lemma IncrementVisitCount_ToggleVisibility_commute_witness :
  let w := registry [("home.md", mkRow "Home" true 4)] [] in
  pages (ToggleVisibility "home.md" (IncrementVisitCount "home.md" w).2).2
    !! "home.md"
  = Some (mkRow "Home" false 5).
Proof.
  intros w.
  exact (proj1 (proj2 (IncrementVisitCount_ToggleVisibility_commute
                         "home.md" "home.md" w eq_refl))
           (mkRow "Home" true 4) eq_refl).
Defined.

End registry_more.

(** ** Titles of pages in directories *)

Section title_more.
Import GoString Filepath Database Run.

Lemma ext_scan_dir l r acc :
  forallb (fun c => negb (IsPathSeparator c)) l = true ->
  ext_scan (l ++ "/"%char :: r) acc = ext_scan l acc.
Proof.
  revert acc. induction l as [|c l IH]; intros acc Hl; [done|].
  simpl in Hl. apply andb_true_iff in Hl as [Hc Hl]. apply negb_true_iff in Hc.
  simpl. rewrite Hc. destruct (Ascii.eqb c "."); [done|]. by apply IH.
Qed.

Lemma last_elem_dir l r acc :
  forallb (fun c => negb (IsPathSeparator c)) l = true ->
  last_elem (l ++ "/"%char :: r) acc = last_elem l acc.
Proof.
  revert acc. induction l as [|c l IH]; intros acc Hl; [done|].
  simpl in Hl. apply andb_true_iff in Hl as [Hc Hl]. apply negb_true_iff in Hc.
  simpl. rewrite Hc. by apply IH.
Qed.

Lemma no_slash_rev s :
  no_slash s = true ->
  forallb (fun c => negb (IsPathSeparator c)) (rev (bytes s)) = true.
Proof.
  unfold no_slash. rewrite !forallb_forall. intros H c Hc. apply H.
  by apply in_rev.
Qed.

Lemma no_slash_app a b : no_slash (a +:+ b) = no_slash a && no_slash b.
Proof. unfold no_slash. by rewrite bytes_app, forallb_app. Qed.

Lemma bytes_dir dir name :
  rev (bytes (dir +:+ String "/" name))
  = rev (bytes name) ++ "/"%char :: rev (bytes dir).
Proof.
  rewrite bytes_app.
  change (bytes (String "/" name)) with ("/"%char :: bytes name).
  rewrite rev_app_distr. simpl. by rewrite <- app_assoc.
Qed.

Lemma app_assoc_dir dir p c e :
  dir +:+ String "/" (p +:+ String c e) = (dir +:+ String "/" p) +:+ String c e.
Proof.
  apply bytes_inj. rewrite !bytes_app.
  change (bytes (String "/" (p +:+ String c e)))
    with ("/"%char :: bytes (p +:+ String c e)).
  change (bytes (String "/" p)) with ("/"%char :: bytes p).
  rewrite bytes_app. by rewrite <- app_assoc.
Qed.

Lemma Ext_dir dir name :
  no_slash name = true -> Ext (dir +:+ String "/" name) = Ext name.
Proof.
  intros Hn. unfold Ext. rewrite bytes_dir. by apply ext_scan_dir, no_slash_rev.
Qed.

Lemma Base_dir dir x :
  no_slash x = true -> x <> "" -> Base (dir +:+ String "/" x) = Base x.
Proof.
  intros Hx Hne. unfold Base.
  assert (String.eqb (dir +:+ String "/" x) "" = false) as ->.
  { apply String.eqb_neq. intros H. apply (f_equal bytes) in H.
    rewrite bytes_app in H. by destruct (bytes dir). }
  apply String.eqb_neq in Hne as Hne'. rewrite Hne'.
  rewrite bytes_dir. pose proof (no_slash_rev x Hx) as Hr.
  destruct (rev (bytes x)) as [|c l] eqn:E.
  - exfalso. apply Hne. apply bytes_inj. apply (f_equal (@rev ascii)) in E.
    by rewrite rev_involutive in E.
  - simpl in Hr. apply andb_true_iff in Hr as [Hc Hl]. apply negb_true_iff in Hc.
    simpl. rewrite !Hc. simpl. rewrite !Hc. by rewrite last_elem_dir.
Qed.

Lemma Base_trailing dir : dir <> "" -> Base (dir +:+ "/") = Base dir.
Proof.
  intros Hne. unfold Base.
  assert (String.eqb (dir +:+ "/") "" = false) as ->.
  { apply String.eqb_neq. intros H. apply (f_equal bytes) in H.
    rewrite bytes_app in H. by destruct (bytes dir). }
  apply String.eqb_neq in Hne. rewrite Hne.
  rewrite bytes_app, rev_app_distr. reflexivity.
Qed.

(** The path without its extension, for a file in a directory *)
Lemma stem_dir dir name :
  no_slash name = true ->
  TrimSuffix name (Ext name) <> "" ->
  no_slash (TrimSuffix name (Ext name)) = true
  /\ TrimSuffix (dir +:+ String "/" name) (Ext (dir +:+ String "/" name))
     = dir +:+ String "/" (TrimSuffix name (Ext name)).
Proof.
  intros Hn Hstem.
  destruct (last_mark name) as [Hp | (p & c & e & -> & [-> | ->] & He)].
  - rewrite Ext_dir, Ext_plain, !TrimSuffix_empty by done. done.
  - rewrite app_assoc_dir, !Ext_dot, !TrimSuffix_app by done.
    rewrite no_slash_app in Hn. by apply andb_true_iff in Hn as [Hn _].
  - rewrite no_slash_app in Hn. apply andb_true_iff in Hn as [_ Hn]. done.
Qed.

Lemma bare_dir dir name :
  no_slash name = true ->
  TrimSuffix name (Ext name) = "" ->
  TrimSuffix (dir +:+ String "/" name) (Ext (dir +:+ String "/" name))
  = dir +:+ "/".
Proof.
  intros Hn Hstem.
  destruct (last_mark name) as [Hp | (p & c & e & -> & [-> | ->] & He)].
  - rewrite Ext_plain, TrimSuffix_empty in Hstem by done. subst name.
    by rewrite Ext_dir, Ext_plain, TrimSuffix_empty.
  - rewrite Ext_dot, TrimSuffix_app in Hstem by done. subst p.
    rewrite append_nil.
    change (dir +:+ String "/" (String "." e)) with (dir +:+ "/" +:+ String "." e).
    replace (dir +:+ "/" +:+ String "." e) with ((dir +:+ "/") +:+ String "." e).
    + by rewrite Ext_dot, TrimSuffix_app.
    + apply bytes_inj. rewrite !bytes_app. by rewrite <- app_assoc.
  - rewrite no_slash_app in Hn. apply andb_true_iff in Hn as [_ Hn]. done.
Qed.

(** X6: [pathToTitle] looks at the file name only.  A file whose name has
    something before its extension gets the same title in every directory,
    so two pages with the same file name in two directories share a title;
    a file whose name is an extension and nothing else ([.md]) takes the
    title of the directory it is in. *)
Theorem pathToTitle_directory (dir name : string)
    (Hname : no_slash name = true) :
  (TrimSuffix name (Ext name) <> "" ->
     pathToTitle (dir +:+ "/" +:+ name) = pathToTitle name)
  /\ (TrimSuffix name (Ext name) = "" -> dir <> "" ->
       pathToTitle (dir +:+ "/" +:+ name)
       = GoString.Title (ReplaceAll (ReplaceAll (Base dir) "-" " ") "_" " ")).
Proof.
  change (dir +:+ "/" +:+ name) with (dir +:+ String "/" name).
  unfold pathToTitle. cbv zeta. split.
  - intros Hstem. destruct (stem_dir dir name Hname Hstem) as [Hs ->].
    by rewrite Base_dir.
  - intros Hstem Hdir. rewrite (bare_dir dir name Hname Hstem).
    by rewrite Base_trailing.
Qed.

Lemma pathToTitle_directory_witness :
  pathToTitle "blog/2024/my-first_post.md" = pathToTitle "my-first_post.md"
  /\ pathToTitle "my-first_post.md" = "My First Post"
  /\ pathToTitle "release-notes/.md" = "Release Notes".
Proof.
  split; [|split; [reflexivity|]].
  - refine (proj1 (pathToTitle_directory "blog/2024" "my-first_post.md" eq_refl) _).
    vm_compute. discriminate.
  - exact (proj2 (pathToTitle_directory "release-notes" ".md" eq_refl)
             eq_refl ltac:(discriminate)).
Defined.

End title_more.

(** ** More of the reconciliation: reruns, partial walks, pulls *)

Section reconcile_more.
Import Database Content Run.

Lemma upsert_each_content ps w : content (Spec.upsert_each ps w).2 = content w.
Proof.
  revert w. induction ps as [|p ps IH]; intros w; [done|].
  rewrite upsert_each_cons, IH, upsert_one. simpl. by destruct (next_fault w).
Qed.

Lemma upsert_each_quiet ps w :
  opened (Spec.upsert_each ps w).2 = opened w
  /\ goroutines (Spec.upsert_each ps w).2 = goroutines w.
Proof.
  revert w. induction ps as [|p ps IH]; intros w; [done|].
  rewrite upsert_each_cons. destruct (IH (Spec.upsert_each [p] w).2) as [-> ->].
  rewrite upsert_one. simpl. by destruct (next_fault w).
Qed.

Lemma upsert_each_present ps w :
  (forall p, p ∈ ps -> is_Some (pages w !! p)) ->
  pages (Spec.upsert_each ps w).2 = pages w.
Proof.
  revert w. induction ps as [|p ps IH]; intros w Hall; [done|].
  assert (Hone : pages (Spec.upsert_each [p] w).2 = pages w).
  { rewrite upsert_one. simpl. destruct (next_fault w); [done|]. simpl.
    destruct (Hall p ltac:(left)) as [r Hr]. by eapply insert_or_ignore_present. }
  rewrite upsert_each_cons, IH, Hone; [done|].
  intros q Hq. rewrite Hone. apply Hall. by right.
Qed.

Lemma upsert_each_other ps w q :
  q ∉ ps -> pages (Spec.upsert_each ps w).2 !! q = pages w !! q.
Proof.
  revert w. induction ps as [|p ps IH]; intros w Hq; [done|].
  apply not_elem_of_cons in Hq as [Hqp Hq].
  rewrite upsert_each_cons, IH by done. rewrite upsert_one. simpl.
  destruct (next_fault w); simpl; [done|]. by apply insert_or_ignore_other.
Qed.

Lemma Sync_readable contentPath w d :
  content w = inr d -> Spec.readable d = true ->
  Sync contentPath w
  = (None, add_log "Content sync finished."
             (Spec.upsert_each (Spec.md_files [] d)
                (add_log "Starting content sync with database..." w)).2).
Proof.
  intros Hc Hr. rewrite Sync_run. cbv zeta. rewrite Hc.
  by rewrite (walkDir_readable d _ _ Hr).
Qed.

Lemma walk_each_app path pre rest w :
  forallb Spec.readable pre = true ->
  walk_each visit path (pre ++ rest) w
  = walk_each visit path rest (Spec.upsert_each (files_of path pre) w).2.
Proof.
  revert w. induction pre as [|d1 pre IH]; intros w Hr; [done|].
  simpl in Hr. apply andb_true_iff in Hr as [Hr1 Hr].
  rewrite <- app_comm_cons, walk_each_cons, bind_run. unfold Join.
  rewrite (walkDir_readable d1 _ _ Hr1). simpl.
  rewrite IH by done. unfold files_of. simpl. by rewrite upsert_each_app.
Qed.

Lemma Sync_unreadable contentPath w root name msg pre post inside :
  content w = inr (Dir root (pre ++ Dir name inside (Some msg) :: post) None) ->
  forallb Spec.readable pre = true ->
  Sync contentPath w
  = (Some (Wrapf "error walking content directory" (Errno msg)),
     (Spec.upsert_each (files_of [] pre)
        (add_log "Starting content sync with database..." w)).2).
Proof.
  intros Hc Hpre. rewrite Sync_run. cbv zeta. rewrite Hc.
  rewrite walkDir_Dir, bind_run, visit_Dir. simpl. rewrite bind_run. simpl.
  rewrite walk_each_app by done.
  rewrite walk_each_cons, bind_run, walkDir_Dir, bind_run, visit_Dir. simpl.
  done.
Qed.

Lemma grows_add_log l w : grows w (add_log l w).
Proof.
  split; [|intros q; by left]. intros l0 Hl. simpl. rewrite elem_of_app. by left.
Qed.

Lemma walk_each_grows path dirs :
  Forall (fun d => forall path w, grows w (walkDir visit path d w).2) dirs ->
  forall w, grows w (walk_each visit path dirs w).2.
Proof.
  induction 1 as [|d1 rest Hd1 _ IH]; intros w; [apply grows_refl|].
  rewrite walk_each_cons, bind_run.
  specialize (Hd1 (Join path (Name d1)) w).
  destruct (walkDir visit (Join path (Name d1)) d1 w) as [[e|] w']; simpl in *.
  - done.
  - eapply grows_trans; [exact Hd1 | apply IH].
Qed.

(** Whatever the tree, readable or not, the walk only adds rows. *)
Lemma walkDir_grows d : forall path w, grows w (walkDir visit path d w).2.
Proof.
  induction d as [n data | n dirs e IH] using Entry_tree_ind; intros path w.
  - rewrite walkDir_File, visit_entry. apply grows_each.
  - rewrite walkDir_Dir, bind_run, visit_Dir. simpl. rewrite bind_run.
    destruct e as [msg|]; simpl.
    + apply grows_refl.
    + by apply walk_each_grows.
Qed.

Lemma Sync_grows contentPath w : grows w (Sync contentPath w).2.
Proof.
  rewrite Sync_run. cbv zeta. destruct (content w) as [msg|d].
  - apply grows_add_log.
  - pose proof (walkDir_grows d []
                  (add_log "Starting content sync with database..." w)) as H.
    destruct (walkDir visit [] d _) as [[e|] w2]; simpl in *.
    + destruct (is_SkipDir e || is_SkipAll e); simpl.
      * eapply grows_trans; [apply grows_add_log|].
        eapply grows_trans; [exact H | apply grows_add_log].
      * eapply grows_trans; [apply grows_add_log | exact H].
    + eapply grows_trans; [apply grows_add_log|].
      eapply grows_trans; [exact H | apply grows_add_log].
Qed.

Lemma PullRepo_grows c w : grows w (PullRepo c w).2.
Proof.
  unfold PullRepo. mrun. destruct (remote w) as [|[output status | tree] rest]; mrun.
  - apply grows_add_log.
  - split; [|intros q; by left]. intros l Hl. simpl. rewrite elem_of_app. by left.
  - split; [|intros q; by left]. intros l Hl. simpl. rewrite elem_of_app. by left.
Qed.

Lemma pull_and_sync_grows s w : grows w (Server.pull_and_sync s w).2.
Proof.
  unfold Server.pull_and_sync. rewrite bind_run.
  pose proof (PullRepo_grows (cfg s) w) as H.
  destruct (PullRepo (cfg s) w) as [[e|] w1]; simpl in *.
  - eapply grows_trans; [exact H | apply grows_add_log].
  - rewrite !bind_run. simpl.
    pose proof (Sync_grows (ContentPath (cfg s))
                  (add_log "Content repository pulled successfully." w1)) as H2.
    destruct (Sync _ _) as [[e|] w2]; simpl in *.
    + eapply grows_trans; [exact H|]. eapply grows_trans; [apply grows_add_log|].
      eapply grows_trans; [exact H2 | apply grows_add_log].
    + eapply grows_trans; [exact H|]. eapply grows_trans; [apply grows_add_log|].
      eapply grows_trans; [exact H2 | apply grows_add_log].
Qed.

(** X7: [Sync] is idempotent on a tree that does not change.  After a
    run on a readable tree with a driver that never fails, every markdown
    file of the tree has its row; any later run on the same tree, whatever
    the driver does then, returns no error and leaves the table as it
    is. *)
Theorem Sync_idempotent (contentPath : string) (w : World) (d : Entry)
    (Hc : content w = inr d) (Hr : Spec.readable d = true)
    (Hrun : faults w = []) :
  let w1 := (Sync contentPath w).2 in
  (forall p, p ∈ Spec.md_files [] d -> is_Some (pages w1 !! p))
  /\ content w1 = inr d
  /\ (forall w2, content w2 = inr d -> pages w2 = pages w1 ->
        (Sync contentPath w2).1 = None
        /\ pages (Sync contentPath w2).2 = pages w1).
Proof.
  cbv zeta. rewrite (Sync_readable _ w d Hc Hr). simpl.
  set (w0 := add_log "Starting content sync with database..." w).
  assert (Hall : forall p, p ∈ Spec.md_files [] d ->
                   is_Some (pages (Spec.upsert_each (Spec.md_files [] d) w0).2 !! p)).
  { intros p Hp. apply list_elem_of_lookup in Hp as [i Hi].
    destruct (upsert_each_at _ i p w0 Hi) as [_ H].
    change (faults w0) with (faults w) in H. rewrite Hrun in H.
    by rewrite lookup_nil in H. }
  split; [done|]. split; [by rewrite upsert_each_content|].
  intros w2 Hc2 Hp2. rewrite (Sync_readable _ w2 d Hc2 Hr). simpl.
  split; [done|]. rewrite <- Hp2.
  change (pages w2)
    with (pages (add_log "Starting content sync with database..." w2)).
  apply upsert_each_present.
  intros p Hp. change (pages (add_log _ w2)) with (pages w2). rewrite Hp2.
  by apply Hall.
Qed.

Lemma Sync_idempotent_witness :
  let w := set_content (inr sample_tree) fresh in
  let w1 := (Sync "./content" w).2 in
  let w2 := set_faults [Some "database is locked"] w1 in
  is_Some (pages w1 !! "blog/post.md")
  /\ (Sync "./content" w2).1 = None
  /\ pages (Sync "./content" w2).2 = pages w1.
Proof.
  intros w w1 w2.
  destruct (Sync_idempotent "./content" w sample_tree eq_refl eq_refl eq_refl)
    as (Hall & _ & Hagain).
  split.
  - apply Hall. vm_compute. left.
  - apply (Hagain w2); reflexivity.
Defined.

(** X8: [Sync] stops at the first directory it cannot list and is not
    undone.  When the root lists readable entries, then a directory whose
    listing fails, [Sync] returns the wrapped error of that listing; the
    markdown files walked before that directory have been upserted as in a
    full run, one statement each; no other row is touched, so the files
    after the directory get no row in this run. *)
Theorem Sync_stops_at_unreadable
    (contentPath : string) (w : World) (root name msg : string)
    (pre post inside : list Entry)
    (Hc : content w
          = inr (Dir root (pre ++ Dir name inside (Some msg) :: post) None))
    (Hpre : forallb Spec.readable pre = true) :
  let out := Sync contentPath w in
  let walked := files_of [] pre in
  out.1 = Some (Wrapf "error walking content directory" (Errno msg))
  /\ (forall i p, walked !! i = Some p ->
        found p ∈ logs out.2
        /\ match faults w !! i with
           | Some (Some m) => failed p m ∈ logs out.2
           | _ => is_Some (pages out.2 !! p)
           end)
  /\ (forall q, q ∉ walked -> pages out.2 !! q = pages w !! q)
  /\ faults out.2 = drop (length walked) (faults w).
Proof.
  cbv zeta. rewrite (Sync_unreadable _ w root name msg pre post inside Hc Hpre).
  simpl. set (w0 := add_log "Starting content sync with database..." w).
  split; [done|]. split; [|split].
  - intros i p Hi. apply (upsert_each_at _ i p w0 Hi).
  - intros q Hq. by rewrite (upsert_each_other _ w0).
  - exact (upsert_each_faults _ w0).
Qed.

Lemma Sync_stops_at_unreadable_witness :
  let tree :=
    Dir "content"
      [File "about.md" (inl "# About");
       Dir "private" [File "plan.md" (inl "# Plan")] (Some "permission denied");
       File "zebra.md" (inl "# Zebra")] None in
  let out := Sync "./content" (set_content (inr tree) fresh) in
  out.1 = Some (Wrapf "error walking content directory" (Errno "permission denied"))
  /\ is_Some (pages out.2 !! "about.md")
  /\ pages out.2 !! "zebra.md" = None
  /\ pages out.2 !! "private/plan.md" = None.
Proof.
  intros tree out.
  destruct (Sync_stops_at_unreadable "./content" (set_content (inr tree) fresh)
              "content" "private" "permission denied"
              [File "about.md" (inl "# About")]
              [File "zebra.md" (inl "# Zebra")]
              [File "plan.md" (inl "# Plan")] eq_refl eq_refl)
    as (Herr & Hat & Hother & _).
  split; [exact Herr|]. split; [|split].
  - exact (proj2 (Hat 0%nat "about.md" eq_refl)).
  - apply (Hother "zebra.md"). vm_compute.
    intros H. apply elem_of_cons in H as [H|H]; [discriminate|].
    by apply elem_of_nil in H.
  - apply (Hother "private/plan.md"). vm_compute.
    intros H. apply elem_of_cons in H as [H|H]; [discriminate|].
    by apply elem_of_nil in H.
Defined.

(** X9: the goroutine of an accepted delivery only adds rows.  Whatever
    [git pull] does and whatever the tree then holds, readable or not,
    every row that was in the table is there unchanged afterwards (a hidden
    page stays hidden, a visit count is kept, the row of a file that is
    gone stays); a row that appears has the title derived from its path, is
    visible and has no visits; no line of the log is lost. *)
Theorem pull_and_sync_only_adds (s : Server) (w : World) :
  let w' := (Server.run_goroutine s GoPullAndSync w).2 in
  (forall q r, pages w !! q = Some r -> pages w' !! q = Some r)
  /\ (forall q r, pages w !! q = None -> pages w' !! q = Some r ->
        r = mkRow (pathToTitle q) true 0)
  /\ (forall l, l ∈ logs w -> l ∈ logs w').
Proof.
  cbv zeta. simpl. destruct (pull_and_sync_grows s w) as [Hl Hp].
  split; [|split].
  - intros q r Hq. destruct (Hp q) as [-> | [Hn _]]; congruence.
  - intros q r Hq Hq'. destruct (Hp q) as [H | [_ H]]; congruence.
  - exact Hl.
Qed.

Lemma pull_and_sync_only_adds_witness :
  let w := set_remote [PullOk (inr later_tree)]
             (set_content (inr sample_tree)
                (registry [("home.md", mkRow "Welcome" false 5)] [])) in
  let w' := (Server.run_goroutine (server "s3cret") GoPullAndSync w).2 in
  pages w' !! "home.md" = Some (mkRow "Welcome" false 5)
  /\ pages w' !! "about.md" = Some (mkRow "About" true 0).
Proof.
  intros w w'.
  destruct (pull_and_sync_only_adds (server "s3cret") w) as (Hkeep & Hnew & _).
  split; [exact (Hkeep "home.md" _ eq_refl)|].
  assert (Hsome : is_Some (pages w' !! "about.md")) by (vm_compute; eauto).
  destruct Hsome as [r Hr]. rewrite Hr. f_equal.
  exact (Hnew "about.md" r eq_refl Hr).
Defined.

End reconcile_more.

(** ** Serving pages *)

Section pages_more.
Import Database Content Run Server.
Local Open Scope Z_scope.

Variable md_Convert : string -> string + string.
Variable ExecuteTemplate :
  string -> gmap string TmplValue -> string * option string.

(** What [render] leaves of the world *)
Lemma render_frame s name data w :
  let out := render ExecuteTemplate s name data w in
  pages out.2 = pages w /\ goroutines out.2 = goroutines w
  /\ opened out.2 = opened w /\ content out.2 = content w
  /\ faults out.2 = tail (faults w).
Proof.
  cbv zeta. unfold render, GetVisiblePages. rewrite bind_run, Query_run. simpl.
  destruct (next_fault w); simpl; [done|].
  by destruct (ExecuteTemplate _ _) as [out [msg|]].
Qed.

Lemma render_navigation_failed s name data w msg :
  next_fault w = Some msg ->
  (render ExecuteTemplate s name data w).1
  = http_Error "Could not fetch navigation" StatusInternalServerError.
Proof.
  intros H. unfold render, GetVisiblePages. by rewrite bind_run, Query_run, H.
Qed.

Lemma next_fault_tail w msg :
  faults w !! 1%nat = Some (Some msg) ->
  next_fault (set_faults (tail (faults w)) w) = Some msg.
Proof.
  unfold next_fault. simpl. destruct (faults w) as [|o [|o' fs]]; simpl; try done.
  by intros [= ->].
Qed.

(** [renderPage], step by step *)
Lemma renderPage_run s r p w :
  renderPage md_Convert ExecuteTemplate s r p w
  = let w1 := set_faults (tail (faults w)) w in
    let missing := (http_Error "Page not found" StatusNotFound, w1) in
    match next_fault w with
    | Some _ => missing
    | None =>
        match pages w !! p with
        | None => missing
        | Some row =>
            if is_visible row then
              let w2 := add_opened p w1 in
              match page_text w p with
              | None =>
                  (http_Error "Could not read page content"
                     StatusInternalServerError, w2)
              | Some text =>
                  match md_Convert text with
                  | inr _ =>
                      (http_Error "Could not render page"
                         StatusInternalServerError, w2)
                  | inl html =>
                      render ExecuteTemplate s "page.html"
                        (<["Title" := VString (title row)]>
                           (<["Content" := VHTML html]> ∅))
                        (add_goroutine (GoIncrementVisitCount p) w2)
                  end
              end
            else missing
        end
    end.
Proof.
  cbv zeta. unfold renderPage, GetPageByPath. rewrite !bind_run, Query_run. simpl.
  destruct (next_fault w); [done|].
  destruct (pages w !! p) as [row|]; [|done]. simpl.
  destruct (is_visible row); [|done]. simpl.
  unfold Open, page_text. rewrite !bind_run. simpl.
  destruct (content w) as [msg|root]; simpl; [done|].
  destruct (find_entry _ root) as [file|]; [|done].
  destruct (ReadAll file) as [text|]; [|done].
  destruct (md_Convert text) as [html|]; [|done].
  by rewrite bind_run.
Qed.

Lemma split_go_segment n : forall cur s,
  no_slash n = true ->
  GoString.split_go "/" cur (n +:+ s)
  = GoString.split_go "/" (rev (GoString.bytes n) ++ cur) s.
Proof.
  induction n as [|c n IH]; intros cur s Hn; [done|].
  unfold no_slash in Hn. simpl in Hn. apply andb_true_iff in Hn as [Hc Hn].
  apply negb_true_iff in Hc. unfold Filepath.IsPathSeparator in Hc.
  rewrite append_cons. simpl. rewrite Hc. rewrite IH by done.
  change (GoString.bytes (String c n)) with (c :: GoString.bytes n). simpl.
  by rewrite <- app_assoc.
Qed.

Lemma Split_concat names : forall cur n,
  Forall (fun x => no_slash x = true) (n :: names) ->
  GoString.split_go "/" cur (String.concat "/" (n :: names))
  = GoString.str (rev cur ++ GoString.bytes n) :: names.
Proof.
  induction names as [|m names IH]; intros cur n Hall.
  - apply Forall_cons in Hall as [Hn _]. simpl.
    rewrite <- (app_empty_r n) at 1. rewrite split_go_segment by done. simpl.
    by rewrite rev_app_distr, rev_involutive.
  - apply Forall_cons in Hall as [Hn Hall].
    change (String.concat "/" (n :: m :: names))
      with (n +:+ String "/" (String.concat "/" (m :: names))).
    rewrite split_go_segment by done.
    change (GoString.split_go "/" ?c (String "/" ?t))
      with (GoString.str (rev c) :: GoString.split_go "/" [] t).
    rewrite rev_app_distr, rev_involutive. f_equal.
    rewrite IH by done. simpl. by rewrite str_bytes.
Qed.

(** Splitting the path [Sync] stores gives back the names of the walk. *)
Lemma Split_slash_path names :
  names <> [] -> Forall (fun x => no_slash x = true) names ->
  GoString.Split (Spec.slash_path names) "/" = names.
Proof.
  intros Hne Hall. destruct names as [|n names]; [done|].
  unfold GoString.Split.
  change (Spec.slash_path (n :: names)) with (String.concat "/" (n :: names)).
  rewrite Split_concat by done. simpl. by rewrite str_bytes.
Qed.

(** X10: from the working copy to the served page.  After [Sync] on a
    readable tree with a driver that never fails, a markdown file of the
    tree is registered under the path that [renderPage] then resolves to
    that very file: for a path that had no row, or a visible one, the page
    is found, the file is opened under the registered path, its text is
    converted and handed to the template with the title of the row (the
    one derived from the path when the row is new), and the visit is
    scheduled for counting. *)
Theorem Sync_then_renderPage
    (s : Server) (r : Request) (contentPath : string) (w : World)
    (d : Entry) (names : list string) (n text html : string)
    (Hc : content w = inr d) (Hr : Spec.readable d = true)
    (Hrun : faults w = [])
    (Hfile : find_entry names d = Some (File n (inl text)))
    (Hmd : GoString.HasSuffix n ".md" = true)
    (Hnames : names <> []) (Hslash : Forall (fun x => no_slash x = true) names)
    (Hvis : forall row, pages w !! Spec.slash_path names = Some row ->
                        is_visible row = true)
    (Hconv : md_Convert text = inl html) :
  let p := Spec.slash_path names in
  let w1 := (Sync contentPath w).2 in
  let row := default (mkRow (pathToTitle p) true 0) (pages w !! p) in
  let out := renderPage md_Convert ExecuteTemplate s r p w1 in
  pages w1 !! p = Some row
  /\ page_text w1 p = Some text
  /\ out = render ExecuteTemplate s "page.html"
             (<["Title" := VString (title row)]> (<["Content" := VHTML html]> ∅))
             (add_goroutine (GoIncrementVisitCount p) (add_opened p w1))
  /\ opened out.2 = opened w ++ [p]
  /\ goroutines out.2 = goroutines w ++ [GoIncrementVisitCount p].
Proof.
  cbv zeta. set (p := Spec.slash_path names).
  rewrite (Sync_readable contentPath w d Hc Hr). simpl.
  set (w0 := add_log "Starting content sync with database..." w).
  set (files := Spec.md_files [] d).
  set (w1 := add_log "Content sync finished." (Spec.upsert_each files w0).2).
  assert (Hin : p ∈ files) by (by apply (md_files_reach names d [] n (inl text))).
  assert (Hrow : pages w1 !! p
                 = Some (default (mkRow (pathToTitle p) true 0) (pages w !! p))).
  { apply list_elem_of_lookup in Hin as [i Hi].
    destruct (upsert_each_at files i p w0 Hi) as [_ H].
    change (faults w0) with (faults w) in H. rewrite Hrun, lookup_nil in H.
    destruct (grows_each files w0) as [_ Hg].
    change (pages w1) with (pages (Spec.upsert_each files w0).2).
    destruct (Hg p) as [Heq | [Hnone Hnew]].
    - rewrite Heq in *. change (pages w0) with (pages w) in *.
      destruct H as [row Hrow]. by rewrite Hrow.
    - change (pages w0) with (pages w) in Hnone. by rewrite Hnew, Hnone. }
  assert (Hcontent : content w1 = inr d).
  { change (content w1) with (content (Spec.upsert_each files w0).2).
    by rewrite upsert_each_content. }
  assert (Hfaults : faults w1 = []).
  { change (faults w1) with (faults (Spec.upsert_each files w0).2).
    rewrite upsert_each_faults. change (faults w0) with (faults w).
    by rewrite Hrun, drop_nil. }
  assert (Htext : page_text w1 p = Some text).
  { unfold page_text. rewrite Hcontent. unfold p.
    by rewrite Split_slash_path, Hfile. }
  assert (Hw1 : set_faults (tail (faults w1)) w1 = w1).
  { rewrite Hfaults. destruct w1; simpl in *. by subst. }
  split; [done|]. split; [done|].
  assert (Hout : renderPage md_Convert ExecuteTemplate s r p w1
    = render ExecuteTemplate s "page.html"
        (<["Title" := VString (title (default (mkRow (pathToTitle p) true 0)
                                         (pages w !! p)))]>
           (<["Content" := VHTML html]> ∅))
        (add_goroutine (GoIncrementVisitCount p) (add_opened p w1))).
  { rewrite renderPage_run. cbv zeta. unfold next_fault. rewrite Hfaults, Hrow.
    assert (is_visible (default (mkRow (pathToTitle p) true 0) (pages w !! p))
            = true) as ->.
    { destruct (pages w !! p) as [row|] eqn:E; simpl; [by apply Hvis|done]. }
    rewrite Htext, Hconv. change (tail []) with (@nil (option string)).
    rewrite <- Hfaults at 1. by rewrite <- (Hw1) at 2. }
  split; [exact Hout|]. rewrite Hout.
  destruct (render_frame s "page.html"
              (<["Title" := VString (title (default (mkRow (pathToTitle p) true 0)
                                               (pages w !! p)))]>
                 (<["Content" := VHTML html]> ∅))
              (add_goroutine (GoIncrementVisitCount p) (add_opened p w1)))
    as (_ & Hgo & Hop & _).
  rewrite Hgo, Hop. simpl.
  destruct (upsert_each_quiet files w0) as [-> ->]. done.
Qed.

(** X11: a visit is counted exactly for the requests that get as far as
    the conversion of the markdown.  [renderPage] starts the counting
    goroutine when the driver answers the look-up, the row is visible, the
    file is read and the conversion succeeds, and in no other case: then it
    answers 404 or 500 and starts nothing.  The goroutine is started before
    the template runs, so the visit is counted even when rendering then
    fails; [renderPage] itself never writes to the table, and the goroutine
    adds one to the count of that path. *)
Theorem renderPage_counts_visit
    (s : Server) (r : Request) (p : string) (w : World) :
  let out := renderPage md_Convert ExecuteTemplate s r p w in
  goroutines out.2
  = goroutines w
    ++ (if counted md_Convert w p then [GoIncrementVisitCount p] else [])
  /\ pages out.2 = pages w
  /\ (counted md_Convert w p = false ->
        out.1 = http_Error "Page not found" StatusNotFound
        \/ out.1 = http_Error "Could not read page content"
                     StatusInternalServerError
        \/ out.1 = http_Error "Could not render page" StatusInternalServerError)
  /\ (counted md_Convert w p = true ->
        (forall msg, faults w !! 1%nat = Some (Some msg) ->
           out.1 = http_Error "Could not fetch navigation"
                     StatusInternalServerError)
        /\ (next_fault out.2 = None ->
              pages (run_goroutine s (GoIncrementVisitCount p) out.2).2
              = alter bump p (pages w))).
Proof.
  cbv zeta. rewrite renderPage_run. cbv zeta. unfold counted.
  destruct (next_fault w) as [m|] eqn:Hf; simpl.
  { rewrite app_nil_r. repeat split; try done. by left. }
  destruct (pages w !! p) as [row|] eqn:Hp; simpl.
  2: { rewrite app_nil_r. repeat split; try done. by left. }
  destruct (is_visible row); simpl.
  2: { rewrite app_nil_r. repeat split; try done. by left. }
  destruct (page_text w p) as [text|]; simpl.
  2: { rewrite app_nil_r. repeat split; try done. right; by left. }
  destruct (md_Convert text) as [html|]; simpl.
  2: { rewrite app_nil_r. repeat split; try done. right; by right. }
  set (data := <["Title" := VString (title row)]> (<["Content" := VHTML html]> ∅)).
  set (w2 := add_goroutine (GoIncrementVisitCount p)
               (add_opened p (set_faults (tail (faults w)) w))).
  destruct (render_frame s "page.html" data w2) as (Hpg & Hgo & _ & _ & _).
  rewrite Hpg, Hgo. split; [done|]. split; [done|]. split; [done|].
  intros _. split.
  - intros msg Hmsg. apply (render_navigation_failed s "page.html" data w2 msg).
    by apply next_fault_tail.
  - intros Hnext. simpl. rewrite IncrementVisitCount_run, Hnext. simpl.
    by rewrite Hpg.
Qed.

(** X12: what [handleAdminToggleVisibility] does with a request whose
    route context carries a non-empty wildcard.  The page is addressed
    with or without its [.md]; when the driver runs the statement the
    answer is 200 with the [HX-Redirect] header and the row of the page has
    its visibility negated, also 200 and no change when the page has no
    row; when the driver fails the answer is 500 and nothing changes. *)
Theorem handleAdminToggleVisibility_toggles
    (s : Server) (r : Request) (w : World) (x : string)
    (Hx : URLParam r "*" = x) (Hne : x <> "") :
  let p := if GoString.HasSuffix x ".md" then x else x +:+ ".md" in
  let out := handleAdminToggleVisibility s r w in
  GoString.HasSuffix p ".md" = true
  /\ (next_fault w = None ->
        out.1 = mkResponse StatusOK [("HX-Redirect", "/admin/dashboard")] ""
        /\ pages out.2 = alter flip_visible p (pages w)
        /\ (pages w !! p = None -> pages out.2 = pages w))
  /\ (forall msg, next_fault w = Some msg ->
        out.1 = http_Error "Failed to toggle visibility"
                  StatusInternalServerError
        /\ pages out.2 = pages w).
Proof.
  cbv zeta. rewrite handleAdminToggleVisibility_wildcard by (by rewrite Hx).
  cbv zeta. rewrite Hx, ToggleVisibility_run. split; [|split].
  - destruct (GoString.HasSuffix x ".md") eqn:E; [done|apply HasSuffix_app].
  - intros ->. simpl. split; [done|]. split; [done|].
    intros Hnone. by apply alter_id'.
  - by intros msg ->.
Qed.

End pages_more.

Section pages_more_runs.
Import Database Content Run Server.
Local Open Scope Z_scope.

Lemma Sync_then_renderPage_witness :
  let w := set_content (inr sample_tree) fresh in
  let w1 := (Sync "./content" w).2 in
  let out := renderPage plain_markdown named_template (server "s3cret")
               (routed_to []) "blog/post.md" w1 in
  pages w1 !! "blog/post.md" = Some (mkRow "Post" true 0)
  /\ opened out.2 = ["blog/post.md"]
  /\ goroutines out.2 = [GoIncrementVisitCount "blog/post.md"].
Proof.
  intros w w1 out.
  destruct (Sync_then_renderPage plain_markdown named_template
              (server "s3cret") (routed_to []) "./content" w sample_tree
              ["blog"; "post.md"] "post.md" "# Post" "# Post"
              eq_refl eq_refl eq_refl eq_refl eq_refl
              ltac:(discriminate) ltac:(repeat constructor)
              ltac:(intros row H; vm_compute in H; discriminate H) eq_refl)
    as (Hrow & _ & _ & Hop & Hgo).
  split; [exact Hrow|]. split; [exact Hop | exact Hgo].
Defined.

Lemma renderPage_counts_visit_witness :
  let w := set_content (inr sample_tree)
             (registry [("home.md", mkRow "Home" true 4)]
                [None; Some "database is locked"]) in
  let out := renderPage plain_markdown named_template (server "s3cret")
               (routed_to []) "home.md" w in
  out.1 = http_Error "Could not fetch navigation" StatusInternalServerError
  /\ goroutines out.2 = [GoIncrementVisitCount "home.md"]
  /\ pages (run_goroutine (server "s3cret") (GoIncrementVisitCount "home.md")
              out.2).2 !! "home.md"
     = Some (mkRow "Home" true 5).
Proof.
  intros w out.
  destruct (renderPage_counts_visit plain_markdown named_template
              (server "s3cret") (routed_to []) "home.md" w)
    as (Hgo & _ & _ & Hcounted).
  destruct (Hcounted eq_refl) as [Hnav Hrun].
  split; [exact (Hnav "database is locked" eq_refl)|]. split; [exact Hgo|].
  fold out in Hrun. rewrite (Hrun eq_refl). reflexivity.
Defined.

Lemma handleAdminToggleVisibility_toggles_witness :
  let w := registry [("about.md", mkRow "About us" true 7)] [] in
  let out := handleAdminToggleVisibility (server "s3cret")
               (routed_to [("*", "about")]) w in
  StatusCode out.1 = StatusOK
  /\ pages out.2 !! "about.md" = Some (mkRow "About us" false 7).
Proof.
  intros w out.
  destruct (handleAdminToggleVisibility_toggles (server "s3cret")
              (routed_to [("*", "about")]) w "about" eq_refl
              ltac:(discriminate)) as (_ & Hok & _).
  destruct (Hok eq_refl) as (Hresp & Hpages & _).
  fold out in Hresp, Hpages. rewrite Hresp, Hpages. split; reflexivity.
Defined.

End pages_more_runs.

(** ** The public routes *)

Section routes.
Import Database Content Run Server.
Local Open Scope Z_scope.

Variable md_Convert : string -> string + string.
Variable ExecuteTemplate :
  string -> gmap string TmplValue -> string * option string.
Variable http_ServeFile : Request -> string -> M Response.
Variable filepath_Join : string -> string -> string.
Variable json_Unmarshal : string -> option (gmap string JSON).

Lemma HasPrefix_nil s : GoString.HasPrefix s "" = true.
Proof. reflexivity. Qed.

Lemma HasPrefix_empty d p : GoString.HasPrefix "" (String d p) = false.
Proof. reflexivity. Qed.

Lemma HasPrefix_cons c s d p :
  GoString.HasPrefix (String c s) (String d p)
  = Ascii.eqb c d && GoString.HasPrefix s p.
Proof.
  unfold GoString.HasPrefix, GoString.slice_to, GoString.len.
  simpl String.length.
  change (GoString.bytes (String c s)) with (c :: GoString.bytes s). simpl take.
  change (GoString.str (c :: ?l)) with (String c (GoString.str l)).
  simpl String.eqb.
  change (S ?a <=? S ?b)%nat with (a <=? b)%nat.
  destruct (Ascii.eqb c d); simpl; [done|]. by rewrite andb_false_r.
Qed.

Lemma HasPrefix_iff s p :
  GoString.HasPrefix s p = true <-> exists t, s = p +:+ t.
Proof.
  revert s. induction p as [|d p IH]; intros s.
  - rewrite HasPrefix_nil. split; [|done]. intros _. by exists s.
  - destruct s as [|c s].
    + rewrite HasPrefix_empty. split; [done|]. by intros [t Ht].
    + rewrite HasPrefix_cons, andb_true_iff, Ascii.eqb_eq, IH. split.
      * intros [-> [t ->]]. by exists t.
      * intros [t Ht]. rewrite append_cons in Ht. injection Ht as -> ->.
        split; [done|]. by exists t.
Qed.

(** Appending a suffix whose first byte does not occur in the prefix does
    not make a string start with the prefix. *)
Lemma HasPrefix_app e0 e p : forall x,
  e0 ∉ GoString.bytes p ->
  GoString.HasPrefix (x +:+ String e0 e) p = GoString.HasPrefix x p.
Proof.
  induction p as [|d p IH]; intros x Hnot.
  - by rewrite !HasPrefix_nil.
  - change (GoString.bytes (String d p)) with (d :: GoString.bytes p) in Hnot.
    apply not_elem_of_cons in Hnot as [Hd Hnot].
    destruct x as [|c x].
    + rewrite append_nil, HasPrefix_cons, HasPrefix_empty.
      apply Ascii.eqb_neq in Hd. by rewrite Hd.
    + rewrite append_cons, !HasPrefix_cons. by rewrite IH.
Qed.

(** The page [handlePageOrAsset] renders for a wildcard that names no
    asset *)
Lemma handlePageOrAsset_page s r w :
  GoString.HasPrefix (URLParam r "*") "img/" = false ->
  GoString.HasPrefix (URLParam r "*") "assets/" = false ->
  handlePageOrAsset md_Convert ExecuteTemplate http_ServeFile filepath_Join s r w
  = renderPage md_Convert ExecuteTemplate s r
      (if String.eqb (URLParam r "*") "" then "home.md"
       else if GoString.HasSuffix (URLParam r "*") ".md" then URLParam r "*"
            else URLParam r "*" +:+ ".md") w.
Proof.
  intros Himg Hassets. unfold handlePageOrAsset. cbv zeta.
  rewrite Himg, Hassets. simpl.
  destruct (String.eqb (URLParam r "*") "") eqn:E.
  - apply String.eqb_eq in E. by rewrite E.
  - by destruct (GoString.HasSuffix (URLParam r "*") ".md").
Qed.

(** X13: a page answers under its name with or without [.md], and the
    home page under the empty path, [home] and [home.md].  For a wildcard
    [x] that names no asset, is not empty and does not end with [.md],
    [handlePageOrAsset] renders the page stored as [x.md], and does the
    same for the wildcard [x.md]; for the empty wildcard it does what
    [handleHomepage] does. *)
Theorem handlePageOrAsset_urls
    (s : Server) (w : World) (x : string) (r0 r1 r2 : Request)
    (Himg : GoString.HasPrefix x "img/" = false)
    (Hassets : GoString.HasPrefix x "assets/" = false)
    (Hne : x <> "") (Hmd : GoString.HasSuffix x ".md" = false)
    (H0 : URLParam r0 "*" = "")
    (H1 : URLParam r1 "*" = x)
    (H2 : URLParam r2 "*" = x +:+ ".md") :
  handlePageOrAsset md_Convert ExecuteTemplate http_ServeFile filepath_Join s r1 w
  = renderPage md_Convert ExecuteTemplate s r1 (x +:+ ".md") w
  /\ handlePageOrAsset md_Convert ExecuteTemplate http_ServeFile filepath_Join
       s r2 w
     = handlePageOrAsset md_Convert ExecuteTemplate http_ServeFile filepath_Join
         s r1 w
  /\ handlePageOrAsset md_Convert ExecuteTemplate http_ServeFile filepath_Join
       s r0 w
     = handleHomepage md_Convert ExecuteTemplate s r0 w
  /\ (x = "home" ->
        handlePageOrAsset md_Convert ExecuteTemplate http_ServeFile
          filepath_Join s r1 w
        = handleHomepage md_Convert ExecuteTemplate s r0 w).
Proof.
  assert (E1 : handlePageOrAsset md_Convert ExecuteTemplate http_ServeFile
                 filepath_Join s r1 w
               = renderPage md_Convert ExecuteTemplate s r1 (x +:+ ".md") w).
  { rewrite handlePageOrAsset_page; rewrite H1; try done.
    apply String.eqb_neq in Hne. by rewrite Hne, Hmd. }
  assert (Hdot : forall p, "."%char ∉ GoString.bytes p ->
                   GoString.HasPrefix (x +:+ ".md") p = GoString.HasPrefix x p).
  { intros p Hp. change ".md" with (String "." "md"). by apply HasPrefix_app. }
  assert (E2 : handlePageOrAsset md_Convert ExecuteTemplate http_ServeFile
                 filepath_Join s r2 w
               = renderPage md_Convert ExecuteTemplate s r1 (x +:+ ".md") w).
  { rewrite handlePageOrAsset_page; rewrite H2.
    - rewrite HasSuffix_app.
      assert (String.eqb (x +:+ ".md") "" = false) as ->; [|done].
      apply String.eqb_neq. intros H. apply (f_equal GoString.len) in H.
      rewrite len_app in H. simpl in H. lia.
    - rewrite Hdot; [done|]. vm_compute. intros H.
      repeat (apply elem_of_cons in H as [H|H]; [done|]). by apply elem_of_nil in H.
    - rewrite Hdot; [done|]. vm_compute. intros H.
      repeat (apply elem_of_cons in H as [H|H]; [done|]). by apply elem_of_nil in H. }
  split; [done|]. split; [by rewrite E2|]. split.
  - rewrite handlePageOrAsset_page; rewrite H0; done.
  - intros ->. by rewrite E1.
Qed.



(** X16: [handleWebhook] itself never touches the table, the driver, the
    working copy or the repository, whatever the request.  It starts the
    pull-and-reconcile goroutine exactly when it answers 202, and leaves
    the world as it was otherwise.  A missing signature header is answered
    400 before the body is read; with a header, a body that cannot be read
    is answered 500. *)
Theorem handleWebhook_frame (s : Server) (r : Request) (w : World) :
  let out := handleWebhook json_Unmarshal s r w in
  pages out.2 = pages w /\ faults out.2 = faults w
  /\ content out.2 = content w /\ remote out.2 = remote w
  /\ opened out.2 = opened w
  /\ ((StatusCode out.1 = StatusAccepted
       /\ goroutines out.2 = goroutines w ++ [GoPullAndSync])
      \/ (StatusCode out.1 <> StatusAccepted /\ out.2 = w))
  /\ (Get (Header r) "X-Hub-Signature-256" = "" ->
        out.1 = http_Error "Missing signature" StatusBadRequest)
  /\ (forall e, Get (Header r) "X-Hub-Signature-256" <> "" -> Body r = inr e ->
        out.1 = http_Error "Cannot read body" StatusInternalServerError).
Proof.
  cbv zeta. unfold handleWebhook.
  destruct (String.eqb (Get (Header r) "X-Hub-Signature-256") "") eqn:Hsig.
  { apply String.eqb_eq in Hsig. repeat split; try done. right. by split. }
  apply String.eqb_neq in Hsig.
  destruct (Body r) as [body|e].
  2: { repeat split; try done. right. by split. }
  destruct (negb (Crypto.Equal _ _)).
  { repeat split; try done. right. by split. }
  destruct (json_Unmarshal body) as [payload|].
  2: { repeat split; try done. right. by split. }
  destruct (payload !! "ref") as [[| | |ref| |]|];
    try (repeat split; try done; right; by split).
  destruct (negb true || _).
  - repeat split; try done. right. by split.
  - repeat split; try done. left. by split.
Qed.

End routes.

Section routes_runs.
Import Database Content Run Server.
Local Open Scope Z_scope.

Lemma handlePageOrAsset_urls_witness :
  let s := server "s3cret" in
  let w := set_content (inr sample_tree)
             (registry [("blog/post.md", mkRow "Post" true 2)] []) in
  handlePageOrAsset plain_markdown named_template no_file joined s
    (routed_to [("*", "blog/post.md")]) w
  = handlePageOrAsset plain_markdown named_template no_file joined s
      (routed_to [("*", "blog/post")]) w.
Proof.
  intros s w.
  exact (proj1 (proj2 (handlePageOrAsset_urls plain_markdown named_template
                         no_file joined s w "blog/post"
                         (routed_to [("*", "")])
                         (routed_to [("*", "blog/post")])
                         (routed_to [("*", "blog/post.md")])
                         eq_refl eq_refl ltac:(discriminate) eq_refl
                         eq_refl eq_refl eq_refl))).
Defined.



Lemma handleWebhook_frame_witness :
  (handleWebhook decode (server "s3cret") (routed_to []) fresh).1
  = http_Error "Missing signature" StatusBadRequest.
Proof.
  destruct (handleWebhook_frame decode (server "s3cret") (routed_to []) fresh)
    as (_ & _ & _ & _ & _ & _ & H & _).
  exact (H eq_refl).
Defined.

End routes_runs.

(** ** The administration area: sessions and the configuration *)

Section admin.
Import Database Content Run Server.
Local Open Scope Z_scope.

Variable ExecuteTemplate :
  string -> gmap string TmplValue -> string * option string.
Variable r_Cookie : Request -> string -> option string.
Variable r_FormValue : Request -> string -> string.
Variable http_Redirect : Routed -> string -> Z -> Response.
Variable cookie_String : Cookie -> string.

(** A route of the [/admin] group, step by step *)
Lemma admin_route_run s h r w :
  admin_route r_Cookie http_Redirect s h r w
  = if GoString.HasPrefix (URLPath r) (AdminLoginPath (cfg s))
    then h (WithValue (is_admin r_Cookie r) r) w
    else if is_admin r_Cookie r then h (WithValue true r) w
         else (http_Redirect (WithValue false r) (AdminLoginPath (cfg s))
                 StatusFound, w).
Proof.
  unfold admin_route, AdminAuthMiddleware, RequireAdmin, is_admin. simpl.
  destruct (GoString.HasPrefix _ _); [done|].
  destruct (r_Cookie (Req r) "admin_session") as [v|]; [|done].
  by destruct (String.eqb v "logged_in").
Qed.

Lemma is_admin_iff r :
  is_admin r_Cookie r = true
  <-> r_Cookie (Req r) "admin_session" = Some "logged_in".
Proof.
  unfold is_admin. destruct (r_Cookie (Req r) "admin_session") as [v|]; [|done].
  rewrite String.eqb_eq. split; [by intros ->|by intros [= ->]].
Qed.

Lemma headers_no_cookie (resp : Response) v :
  RHeader resp = [] \/ RHeader resp = RHeader (http_Error "" 0) ->
  ("Set-Cookie", v) ∉ RHeader resp.
Proof.
  intros [-> | ->]; [apply not_elem_of_nil|]. simpl. intros H.
  repeat (apply elem_of_cons in H as [H|H]; [done|]). by apply elem_of_nil in H.
Qed.

Lemma render_headers s name data w v :
  ("Set-Cookie", v) ∉ RHeader (render ExecuteTemplate s name data w).1.
Proof.
  apply headers_no_cookie.
  unfold render, GetVisiblePages. rewrite bind_run, Query_run. simpl.
  destruct (next_fault w); simpl; [by right|].
  destruct (ExecuteTemplate _ _) as [out [msg|]]; simpl; [|by left].
  destruct (String.eqb out ""); simpl; [by right | by left].
Qed.

(** X17: the routes of the [/admin] group are guarded by the session
    cookie alone.  For a request whose path does not start with the login
    path, the handler runs exactly when the cookie [admin_session] has the
    value [logged_in]; otherwise the request is redirected (302) to the
    login path, the handler does not run and the world is as it was.
    Nothing else of the configuration is consulted, the admin secret
    included; [RequireAdmin] on a request whose context holds no flag
    redirects. *)
Theorem admin_route_gate (s : Server) (h : Handler) (r : Routed) (w : World)
    (Hpath : GoString.HasPrefix (URLPath r) (AdminLoginPath (cfg s)) = false) :
  (r_Cookie (Req r) "admin_session" = Some "logged_in" ->
     admin_route r_Cookie http_Redirect s h r w = h (WithValue true r) w)
  /\ (r_Cookie (Req r) "admin_session" <> Some "logged_in" ->
        admin_route r_Cookie http_Redirect s h r w
        = (http_Redirect (WithValue false r) (AdminLoginPath (cfg s))
             StatusFound, w))
  /\ (IsAdminValue r = None ->
        RequireAdmin http_Redirect s h r w
        = (http_Redirect r (AdminLoginPath (cfg s)) StatusFound, w))
  /\ (forall s', AdminLoginPath (cfg s') = AdminLoginPath (cfg s) ->
        admin_route r_Cookie http_Redirect s' h r w
        = admin_route r_Cookie http_Redirect s h r w).
Proof.
  rewrite admin_route_run, Hpath.
  split; [|split; [|split]].
  - intros Hc. by rewrite (proj2 (is_admin_iff r) Hc).
  - intros Hno. destruct (is_admin r_Cookie r) eqn:E; [|done].
    by apply is_admin_iff in E.
  - intros Hnone. unfold RequireAdmin. by rewrite Hnone, Hpath.
  - intros s' Hs'. by rewrite admin_route_run, Hs', Hpath.
Qed.

(** X18: [RequireAdmin] lets every request through whose path starts
    with the configured login path, admin or not, whatever route it is on.
    A login path that is a prefix of an administration path (such as
    [/admin]) therefore opens that path to requests without a session. *)
Theorem admin_route_login_prefix
    (s : Server) (h : Handler) (r : Routed) (w : World) (rest : string)
    (Hpath : URLPath r = AdminLoginPath (cfg s) +:+ rest) :
  admin_route r_Cookie http_Redirect s h r w
  = h (WithValue (is_admin r_Cookie r) r) w
  /\ (r_Cookie (Req r) "admin_session" = None ->
        admin_route r_Cookie http_Redirect s h r w = h (WithValue false r) w).
Proof.
  rewrite admin_route_run.
  assert (GoString.HasPrefix (URLPath r) (AdminLoginPath (cfg s)) = true) as ->.
  { apply HasPrefix_iff. by exists rest. }
  split; [done|]. unfold is_admin. by intros ->.
Qed.

(** X19: with the configuration [Load] builds when [ADMIN_LOGIN_PATH] is
    unset or empty, the login path is [/admin-login], and every request
    for a path below [/admin/] that carries no valid session cookie is
    redirected there. *)
Theorem Load_protects_admin
    (env : Environ) (c : Config) (h : Handler) (r : Routed) (w : World)
    (rest : string)
    (Hload : Config.Load env = inl c)
    (Hdefault : Config.Getenv env "ADMIN_LOGIN_PATH" = "")
    (Hpath : URLPath r = "/admin/" +:+ rest)
    (Hcookie : r_Cookie (Req r) "admin_session" <> Some "logged_in") :
  AdminLoginPath c = "/admin-login"
  /\ admin_route r_Cookie http_Redirect (mkServer c) h r w
     = (http_Redirect (WithValue false r) "/admin-login" StatusFound, w).
Proof.
  assert (Hlogin : AdminLoginPath c = "/admin-login").
  { unfold Config.Load in Hload. rewrite Hdefault in Hload.
    repeat (destruct (String.eqb _ "") in Hload; [done|]).
    by injection Hload as <-. }
  split; [done|]. rewrite admin_route_run. simpl. rewrite Hlogin, Hpath.
  assert (GoString.HasPrefix ("/admin/" +:+ rest) "/admin-login" = false) as ->.
  { change ("/admin/" +:+ rest)
      with (String "/" (String "a" (String "d" (String "m" (String "i"
              (String "n" (String "/" rest))))))).
    by rewrite !HasPrefix_cons. }
  destruct (is_admin r_Cookie r) eqn:E; [|done]. by apply is_admin_iff in E.
Qed.

(** X20: [handleAdminLoginAttempt] grants a session for the admin
    secret and for nothing else.  When the [password] field equals the
    secret, the answer is the redirect (302) to [/admin/dashboard] with the
    cookie [admin_session=logged_in], HTTP-only, for the path [/], same-site
    lax, expiring 24 hours after the call, and the world is as it was.
    With any other password the login page is rendered with its error: no
    [Set-Cookie] header is sent, whatever the template does, and nothing is
    written or started. *)
Theorem handleAdminLoginAttempt_grants
    (now : Z) (s : Server) (r : Routed) (w : World) :
  let out := handleAdminLoginAttempt ExecuteTemplate r_FormValue http_Redirect
               cookie_String now s r w in
  let cookie :=
    mkCookie "admin_session" "logged_in" (now + 86400000000000) true "/" 2 in
  let redirect := http_Redirect r "/admin/dashboard" StatusFound in
  (r_FormValue (Req r) "password" = AdminSecret (cfg s) ->
     cookie_String cookie <> "" ->
     out = (mkResponse (StatusCode redirect)
              (("Set-Cookie", cookie_String cookie) :: RHeader redirect)
              (RBody redirect), w))
  /\ (r_FormValue (Req r) "password" <> AdminSecret (cfg s) ->
        (forall v, ("Set-Cookie", v) ∉ RHeader out.1)
        /\ out = render ExecuteTemplate s "admin_login.html"
                   (<["Title" := VString "Admin Login"]>
                      (<["Error" := VString "Invalid password"]> ∅)) w
        /\ pages out.2 = pages w /\ goroutines out.2 = goroutines w).
Proof.
  cbv zeta. unfold handleAdminLoginAttempt. split.
  - intros Hpw Hvalid. rewrite Hpw, String.eqb_refl. unfold ret, http_SetCookie.
    change (24 * Hour) with 86400000000000.
    apply String.eqb_neq in Hvalid. by rewrite Hvalid.
  - intros Hpw. apply String.eqb_neq in Hpw. rewrite Hpw.
    split; [intros v; apply render_headers|]. split; [done|].
    by destruct (render_frame ExecuteTemplate s "admin_login.html"
                   (<["Title" := VString "Admin Login"]>
                      (<["Error" := VString "Invalid password"]> ∅)) w)
      as (? & ? & _).
Qed.

(** X21: logging in and out, as the guard of the [/admin] routes sees it.
    The cookie [handleAdminLoginAttempt] sets for the right password opens
    the guarded routes to a request that sends it back; the cookie
    [handleAdminLogout] sets has the same name, an empty value and an
    expiry one hour in the past, and a request that sends it back is
    redirected to the login path, to which the logout itself redirects. *)
Theorem session_round_trip
    (now : Z) (s : Server) (h : Handler) (login logout visit : Routed)
    (w : World)
    (Hpw : r_FormValue (Req login) "password" = AdminSecret (cfg s))
    (Hpath : GoString.HasPrefix (URLPath visit) (AdminLoginPath (cfg s)) = false)
    (Hprinted : forall c, CookieName c = "admin_session" -> cookie_String c <> "") :
  let granted :=
    mkCookie "admin_session" "logged_in" (now + 24 * Hour) true "/" 2 in
  let revoked := mkCookie "admin_session" "" (now + (-1) * Hour) true "/" 0 in
  let entered := handleAdminLoginAttempt ExecuteTemplate r_FormValue
                   http_Redirect cookie_String now s login w in
  let exited := handleAdminLogout http_Redirect cookie_String now s logout w in
  ("Set-Cookie", cookie_String granted) ∈ RHeader entered.1
  /\ ("Set-Cookie", cookie_String revoked) ∈ RHeader exited.1
  /\ exited
     = (mkResponse
          (StatusCode (http_Redirect logout (AdminLoginPath (cfg s)) StatusFound))
          (("Set-Cookie", cookie_String revoked)
             :: RHeader (http_Redirect logout (AdminLoginPath (cfg s)) StatusFound))
          (RBody (http_Redirect logout (AdminLoginPath (cfg s)) StatusFound)), w)
  /\ (now < CookieExpires granted /\ CookieExpires revoked < now)
  /\ (r_Cookie (Req visit) (CookieName granted) = Some (CookieValue granted) ->
        admin_route r_Cookie http_Redirect s h visit w
        = h (WithValue true visit) w)
  /\ (r_Cookie (Req visit) (CookieName revoked) = Some (CookieValue revoked) ->
        admin_route r_Cookie http_Redirect s h visit w
        = (http_Redirect (WithValue false visit) (AdminLoginPath (cfg s))
             StatusFound, w)).
Proof.
  cbv zeta.
  pose proof (Hprinted (mkCookie "admin_session" "logged_in" (now + 24 * Hour)
                          true "/" 2) eq_refl) as Hg.
  pose proof (Hprinted (mkCookie "admin_session" "" (now + (-1) * Hour)
                          true "/" 0) eq_refl) as Hr.
  apply String.eqb_neq in Hg, Hr.
  unfold handleAdminLoginAttempt, handleAdminLogout, ret, http_SetCookie.
  rewrite Hpw, String.eqb_refl, Hg, Hr. simpl.
  split; [left|]. split; [left|]. split; [done|]. split; [unfold Hour; lia|].
  split.
  - intros Hc. rewrite admin_route_run, Hpath.
    by rewrite (proj2 (is_admin_iff visit) Hc).
  - intros Hc. rewrite admin_route_run, Hpath. unfold is_admin. by rewrite Hc.
Qed.

End admin.

Section admin_runs.
Import Database Content Run Server.
Local Open Scope Z_scope.

Lemma admin_route_gate_witness :
  let w := registry [("home.md", mkRow "Home" true 4)] [] in
  (admin_route one_cookie located (server "s3cret") dashboard
     (dashboard_visit ["admin_session=logged_in"]) w).1
  = mkResponse StatusOK [] "admin_dashboard.html"
  /\ admin_route one_cookie located (server "s3cret") dashboard
       (dashboard_visit ["admin_session=guess"]) w
     = (mkResponse StatusFound [("Location", "/admin-login")] "", w).
Proof.
  intros w. split.
  - rewrite (proj1 (admin_route_gate one_cookie located (server "s3cret")
                      dashboard (dashboard_visit ["admin_session=logged_in"]) w
                      eq_refl) eq_refl).
    reflexivity.
  - apply (proj1 (proj2 (admin_route_gate one_cookie located (server "s3cret")
                           dashboard (dashboard_visit ["admin_session=guess"]) w
                           eq_refl))).
    discriminate.
Defined.

Lemma admin_route_login_prefix_witness :
  let w := registry [("home.md", mkRow "Home" true 4)] [] in
  (admin_route one_cookie located open_server dashboard (dashboard_visit []) w).1
  = mkResponse StatusOK [] "admin_dashboard.html".
Proof.
  intros w.
  rewrite (proj2 (admin_route_login_prefix one_cookie located open_server
                    dashboard (dashboard_visit []) w "/dashboard" eq_refl)
             eq_refl).
  reflexivity.
Defined.

Lemma Load_protects_admin_witness :
  let w := registry [("home.md", mkRow "Home" true 4)] [] in
  Config.Load minimal_env = inl (cfg (server "s3cret"))
  /\ admin_route one_cookie located (server "s3cret") dashboard
       (dashboard_visit []) w
     = (mkResponse StatusFound [("Location", "/admin-login")] "", w).
Proof.
  intros w. split; [reflexivity|].
  apply (proj2 (Load_protects_admin one_cookie located minimal_env
                  (cfg (server "s3cret")) dashboard (dashboard_visit []) w
                  "dashboard" eq_refl eq_refl eq_refl ltac:(discriminate))).
Defined.

Lemma handleAdminLoginAttempt_grants_witness :
  handleAdminLoginAttempt named_template body_field located printed_cookie
    1700000000000000000 (server "s3cret") (attempt "admin") fresh
  = (mkResponse StatusFound
       [("Set-Cookie", "admin_session=logged_in");
        ("Location", "/admin/dashboard")] "", fresh)
  /\ (forall v,
        ("Set-Cookie", v)
        ∉ RHeader (handleAdminLoginAttempt named_template body_field located
                     printed_cookie 1700000000000000000 (server "s3cret")
                     (attempt "s3cret") fresh).1).
Proof.
  destruct (handleAdminLoginAttempt_grants named_template body_field located
              printed_cookie 1700000000000000000 (server "s3cret")
              (attempt "admin") fresh) as [Hgrant _].
  destruct (handleAdminLoginAttempt_grants named_template body_field located
              printed_cookie 1700000000000000000 (server "s3cret")
              (attempt "s3cret") fresh) as [_ Hdeny].
  split.
  - apply Hgrant; [reflexivity | discriminate].
  - apply Hdeny. discriminate.
Defined.

Lemma printed_cookie_named c :
  CookieName c = "admin_session" -> printed_cookie c <> "".
Proof. unfold printed_cookie. intros ->. discriminate. Qed.

Lemma session_round_trip_witness :
  let w := registry [("home.md", mkRow "Home" true 4)] [] in
  (admin_route one_cookie located (server "s3cret") dashboard
     (dashboard_visit ["admin_session=logged_in"]) w).1
  = mkResponse StatusOK [] "admin_dashboard.html"
  /\ admin_route one_cookie located (server "s3cret") dashboard
       (dashboard_visit ["admin_session="]) w
     = (mkResponse StatusFound [("Location", "/admin-login")] "", w).
Proof.
  intros w.
  destruct (session_round_trip named_template one_cookie body_field located
              printed_cookie 1700000000000000000 (server "s3cret") dashboard
              (attempt "admin") (dashboard_visit ["admin_session=logged_in"])
              (dashboard_visit ["admin_session=logged_in"]) w
              eq_refl eq_refl printed_cookie_named) as (_ & _ & _ & _ & Hin & _).
  destruct (session_round_trip named_template one_cookie body_field located
              printed_cookie 1700000000000000000 (server "s3cret") dashboard
              (attempt "admin") (dashboard_visit ["admin_session=logged_in"])
              (dashboard_visit ["admin_session="]) w
              eq_refl eq_refl printed_cookie_named) as (_ & _ & _ & _ & _ & Hout).
  split.
  - rewrite (Hin eq_refl). reflexivity.
  - exact (Hout eq_refl).
Defined.

End admin_runs.

(** ** Loading the configuration *)

Section config_load.
Import Config Run.

(** X22: [Load] succeeds exactly when the four required variables are
    set to non-empty values; otherwise it fails with the error naming the
    first of them, in the order [GIT_REPO_URL], [GIT_SSH_KEY_PATH],
    [GITHUB_WEBHOOK_SECRET], [ADMIN_SECRET], that is unset or empty: a
    variable set to the empty string counts as unset. *)
Theorem Load_required (env : Environ) :
  ((exists c, Load env = inl c)
   <-> forallb (fun k => negb (missing env k)) required = true)
  /\ (forall e, Load env = inr e ->
        exists k, List.find (missing env) required = Some k
                  /\ e = Errno (k +:+ " environment variable is required"))
  /\ (forall k, env !! k = Some "" -> missing env k = true)
  /\ (forall k, env !! k = None -> missing env k = true).
Proof.
  unfold Load, required, missing. simpl.
  destruct (String.eqb (Getenv env "GIT_REPO_URL") "") eqn:E1; simpl.
  { split; [split; [by intros [c Hc]|done]|]. split.
    - intros e [= <-]. by exists "GIT_REPO_URL".
    - unfold Getenv. split; by intros k ->. }
  destruct (String.eqb (Getenv env "GIT_SSH_KEY_PATH") "") eqn:E2; simpl.
  { split; [split; [by intros [c Hc]|done]|]. split.
    - intros e [= <-]. by exists "GIT_SSH_KEY_PATH".
    - unfold Getenv. split; by intros k ->. }
  destruct (String.eqb (Getenv env "GITHUB_WEBHOOK_SECRET") "") eqn:E3; simpl.
  { split; [split; [by intros [c Hc]|done]|]. split.
    - intros e [= <-]. by exists "GITHUB_WEBHOOK_SECRET".
    - unfold Getenv. split; by intros k ->. }
  destruct (String.eqb (Getenv env "ADMIN_SECRET") "") eqn:E4; simpl.
  { split; [split; [by intros [c Hc]|done]|]. split.
    - intros e [= <-]. by exists "ADMIN_SECRET".
    - unfold Getenv. split; by intros k ->. }
  split; [split; [done|eauto]|]. split; [done|].
  unfold Getenv. split; by intros k ->.
Qed.

Lemma Load_required_witness :
  Load (<["GIT_SSH_KEY_PATH" := ""]> (delete "ADMIN_SECRET" minimal_env))
  = inr (Errno "GIT_SSH_KEY_PATH environment variable is required").
Proof.
  destruct (Load_required
              (<["GIT_SSH_KEY_PATH" := ""]> (delete "ADMIN_SECRET" minimal_env)))
    as (_ & Herr & _).
  destruct (Load (<["GIT_SSH_KEY_PATH" := ""]> (delete "ADMIN_SECRET" minimal_env)))
    as [c|e] eqn:E; [vm_compute in E; discriminate E|].
  destruct (Herr e eq_refl) as (k & Hk & ->).
  vm_compute in Hk. injection Hk as <-. reflexivity.
Defined.

(** X23: the configuration [Load] returns.  The database and content
    paths are fixed; the four required values are those of the
    environment, none of them empty, so the admin secret is never empty;
    the login path is never empty, and is [/admin-login] when
    [ADMIN_LOGIN_PATH] is unset or empty; a theme variable keeps the value
    it is set to, the empty string included, and has its default only when
    it is unset. *)
Theorem Load_defaults (env : Environ) (c : Config) (Hload : Load env = inl c) :
  DBPath c = "./gmd-data.db" /\ ContentPath c = "./content"
  /\ env !! "GIT_REPO_URL" = Some (GitRepoURL c) /\ GitRepoURL c <> ""
  /\ env !! "GIT_SSH_KEY_PATH" = Some (GitSSHKeyPath c) /\ GitSSHKeyPath c <> ""
  /\ env !! "GITHUB_WEBHOOK_SECRET" = Some (GithubWebhookSecret c)
  /\ GithubWebhookSecret c <> ""
  /\ env !! "ADMIN_SECRET" = Some (AdminSecret c) /\ AdminSecret c <> ""
  /\ AdminLoginPath c <> ""
  /\ AdminLoginPath c
     = match env !! "ADMIN_LOGIN_PATH" with
       | Some "" | None => "/admin-login"
       | Some path => path
       end
  /\ Theme c
     = mkTheme (default "/static/img/logo.svg" (env !! "THEME_LOGO_URL"))
         (default "#3498db" (env !! "THEME_COLOR_PRIMARY"))
         (default "Inter" (env !! "THEME_FONT_SANS"))
  /\ (env !! "THEME_FONT_SANS" = Some "" -> FontSans (Theme c) = "").
Proof.
  unfold Load in Hload.
  destruct (String.eqb (Getenv env "GIT_REPO_URL") "") eqn:E1; [done|].
  destruct (String.eqb (Getenv env "GIT_SSH_KEY_PATH") "") eqn:E2; [done|].
  destruct (String.eqb (Getenv env "GITHUB_WEBHOOK_SECRET") "") eqn:E3; [done|].
  destruct (String.eqb (Getenv env "ADMIN_SECRET") "") eqn:E4; [done|].
  injection Hload as <-. simpl.
  apply String.eqb_neq in E1, E2, E3, E4. unfold Getenv, getEnv, LookupEnv in *.
  destruct (env !! "GIT_REPO_URL") as [v1|]; [|done].
  destruct (env !! "GIT_SSH_KEY_PATH") as [v2|]; [|done].
  destruct (env !! "GITHUB_WEBHOOK_SECRET") as [v3|]; [|done].
  destruct (env !! "ADMIN_SECRET") as [v4|]; [|done].
  repeat (split; [done|]).
  split.
  { destruct (env !! "ADMIN_LOGIN_PATH") as [v|]; [|done].
    destruct (String.eqb v "") eqn:E; [done|]. by apply String.eqb_neq in E. }
  split.
  { destruct (env !! "ADMIN_LOGIN_PATH") as [[|a v]|]; done. }
  split.
  { by destruct (env !! "THEME_LOGO_URL"), (env !! "THEME_COLOR_PRIMARY"),
        (env !! "THEME_FONT_SANS"). }
  by intros ->.
Qed.

Lemma Load_defaults_witness :
  let env := <["THEME_FONT_SANS" := ""]>
               (<["ADMIN_LOGIN_PATH" := ""]> minimal_env) in
  exists c, Load env = inl c
            /\ AdminLoginPath c = "/admin-login"
            /\ Theme c = mkTheme "/static/img/logo.svg" "#3498db" "".
Proof.
  intros env.
  exists (mkConfig "./gmd-data.db" "./content" "git@example.org:me/notes.git"
            "/app/secrets/key" "s3cret" "admin" "/admin-login"
            (mkTheme "/static/img/logo.svg" "#3498db" "")).
  split; [reflexivity|].
  destruct (Load_defaults env _ eq_refl)
    as (_ & _ & _ & _ & _ & _ & _ & _ & _ & _ & _ & Hlogin & Htheme & _).
  split; [exact Hlogin | exact Htheme].
Defined.

End config_load.

(** ** Concurrent deliveries and the registry *)

Section scheduler_more.
Import Scheduler Database Content Run.

Lemma step_of_grows s ph w : grows w (step_of s ph w).2.
Proof.
  destruct ph; simpl.
  - apply grows_add_log.
  - rewrite bind_run. simpl.
    destruct (remote w) as [|[output status | tree] rest]; mrun.
    + apply grows_add_log.
    + split; [|intros q; by left]. intros l Hl. simpl. rewrite elem_of_app. by left.
    + split; [|intros q; by left]. intros l Hl. simpl. rewrite elem_of_app. by left.
  - rewrite !bind_run. simpl.
    pose proof (Sync_grows (ContentPath (cfg s)) w) as H.
    destruct (Sync (ContentPath (cfg s)) w) as [[e|] w2]; simpl in *.
    + eapply grows_trans; [exact H | apply grows_add_log].
    + eapply grows_trans; [exact H | apply grows_add_log].
  - apply grows_refl.
Qed.

Lemma step_grows s p p' : step s p p' -> grows (world p) (world p').
Proof.
  intros [p0 | p0 i ph Hi Hf].
  - unfold accept. simpl. split; [|intros q; by left].
    intros l Hl. simpl. rewrite elem_of_app. by left.
  - unfold run. rewrite Hi. simpl. apply step_of_grows.
Qed.

Lemma reachable_grows s w p : reachable s w p -> grows w (world p).
Proof.
  revert p. apply (rtc_ind_r (fun p => grows w (world p)) (start w)).
  - apply grows_refl.
  - intros p1 p2 _ Hstep IH. eapply grows_trans; [exact IH | by eapply step_grows].
Qed.

(** X24: no schedule of the goroutines of accepted deliveries deletes or
    alters a row.  In every state the pool can reach, however the pulls
    and reconciliations of the goroutines are interleaved, each row the
    table held at the start is still there unchanged; a row that has
    appeared has the title derived from its path, is visible and has no
    visits; no line of the log is lost. *)
Theorem reachable_only_adds (s : Server) (w : World) (p : Pool)
    (Hreach : reachable s w p) :
  (forall q r, pages w !! q = Some r -> pages (world p) !! q = Some r)
  /\ (forall q r, pages w !! q = None -> pages (world p) !! q = Some r ->
        r = mkRow (pathToTitle q) true 0)
  /\ (forall l, l ∈ logs w -> l ∈ logs (world p)).
Proof.
  destruct (reachable_grows s w p Hreach) as [Hl Hp]. split; [|split].
  - intros q r Hq. destruct (Hp q) as [-> | [Hn _]]; congruence.
  - intros q r Hq Hq'. destruct (Hp q) as [H | [_ H]]; congruence.
  - exact Hl.
Qed.

Lemma reachable_only_adds_witness :
  let s := server "s3cret" in
  let w := set_remote [PullOk (inr later_tree)]
             (set_content (inr sample_tree)
                (registry [("home.md", mkRow "Welcome" false 5)] [])) in
  let p := run s 0 (overlap s w) in
  phases p = [Finished; Pulling]
  /\ pages (world p) !! "home.md" = Some (mkRow "Welcome" false 5).
Proof.
  intros s w p. split; [reflexivity|].
  assert (Hreach : reachable s w p).
  { apply (reachable_run s w (overlap s w) 0%nat Reconciling);
      [reflexivity | reflexivity | apply overlap_reachable]. }
  exact (proj1 (reachable_only_adds s w p Hreach) "home.md" _ eq_refl).
Defined.











End scheduler_more.
